(** * FIGARO [figaro/coordinates.py]: coordinate transformations

    A shallow embedding of the seven functions of [coordinates.py] and of
    the NumPy primitives they call.  The code is generic in the scalar
    type: every function is written once over the interface [Num], which
    lists exactly the scalar operations the Python source applies.  Two
    interpretations are used below:

    - [real_num]: exact arithmetic over the real numbers, where the
      trigonometric identities the code relies on hold exactly;
    - [binary64]: IEEE-754 double precision as specified by
      [SpecFloat], with the C mathematical library as a parameter; it is
      the interpretation in which signed zeros and infinities exist.

    Exceptions raised by NumPy (index errors on arrays of the wrong rank
    or width) are values of the error monad [result]. *)

From Stdlib Require Import List ZArith Bool Lia.
From Stdlib Require Import Reals Lra.
From Stdlib Require Import Floats.SpecFloat.
Import ListNotations.

(** ** Exceptions and the error monad *)

Inductive exn : Type :=
| IndexError   (* too many indices, or index out of bounds *)
| AxisError    (* axis out of bounds for the array's rank *)
| TypeError    (* iteration over a 0-d array *)
| ValueError.  (* inhomogeneous shape in [np.array] *)

Inductive result (A : Type) : Type :=
| Ok (a : A)
| Raise (e : exn).

Arguments Ok {A} a.
Arguments Raise {A} e.

Definition bind {A B : Type} (c : result A) (k : A -> result B) : result B :=
  match c with
  | Ok a => k a
  | Raise e => Raise e
  end.

Notation "x <- c ;; k" := (bind c (fun x => k))
  (at level 61, c at next level, right associativity).

Fixpoint mapM {A B : Type} (f : A -> result B) (l : list A) : result (list B) :=
  match l with
  | [] => Ok []
  | a :: l' => b <- f a ;; bs <- mapM f l' ;; Ok (b :: bs)
  end.

(** ** The scalar interface

    One field per scalar operation of the source: the literals [0], [1]
    and [2] ([of_int]), [+] (in [+=] and inside the norm), [*], [/], the
    comparison of [phi < 0], and the NumPy functions [np.sqrt] (inside
    [np.linalg.norm]), [np.sin], [np.cos], [np.arcsin], [np.arctan2] and
    the constant [np.pi]. *)

Class Num (F : Type) : Type := {
  of_int : Z -> F;
  np_add : F -> F -> F;
  np_mul : F -> F -> F;
  np_div : F -> F -> F;
  np_ltb : F -> F -> bool;
  np_sqrt : F -> F;
  np_sin : F -> F;
  np_cos : F -> F;
  np_arcsin : F -> F;
  np_arctan2 : F -> F -> F;
  np_pi : F
}.

Declare Scope num_scope.
Delimit Scope num_scope with num.
Infix "+!" := np_add (at level 50, left associativity) : num_scope.
Infix "*!" := np_mul (at level 40, left associativity) : num_scope.
Infix "/!" := np_div (at level 40, left associativity) : num_scope.
Infix "<?!" := np_ltb (at level 70, no associativity) : num_scope.

(** ** Arrays

    A NumPy array of rank at most two.  A rank-2 array carries its number
    of columns, so that the shape [(0, 3)] differs from [(0, 1)]. *)

Inductive ndarray (F : Type) : Type :=
| Scalar (x : F)                              (* shape [()] *)
| Vec (v : list F)                            (* shape [(n,)] *)
| Mat (ncols : nat) (rows : list (list F)).   (* shape [(N, ncols)] *)

Arguments Scalar {F} x.
Arguments Vec {F} v.
Arguments Mat {F} ncols rows.

(** The rows of a rank-2 array all have [ncols] entries. *)
Definition well_shaped {F : Type} (ncols : nat) (rows : list (list F)) : Prop :=
  Forall (fun row => length row = ncols) rows.

Fixpoint zip_with {A B C : Type} (f : A -> B -> C) (l1 : list A) (l2 : list B)
  : list C :=
  match l1, l2 with
  | a :: l1', b :: l2' => f a b :: zip_with f l1' l2'
  | _, _ => []
  end.

Section Coordinates.

Context {F : Type} {num : Num F}.
Local Open Scope num_scope.

(** *** NumPy primitives *)

(** [np.atleast_2d(a)] *)
Definition np_atleast_2d (a : ndarray F) : ndarray F :=
  match a with
  | Scalar x => Mat 1 [[x]]
  | Vec v => Mat (length v) [v]
  | Mat m rows => Mat m rows
  end.

(** The 2-norm of a flat sequence: the square root of the sum of the
    squares, as NumPy documents [np.linalg.norm]. *)
Definition norm (v : list F) : F :=
  np_sqrt (fold_left np_add (map (fun x => x *! x) v) (of_int 0)).

(** [np.linalg.norm(a)]: the norm of the flattened array. *)
Definition np_linalg_norm (a : ndarray F) : F :=
  match a with
  | Scalar x => norm [x]
  | Vec v => norm v
  | Mat _ rows => norm (concat rows)
  end.

(** [np.linalg.norm(a, axis = -1)]: the norms along the last axis. *)
Definition np_linalg_norm_last_axis (a : ndarray F) : result (ndarray F) :=
  match a with
  | Scalar _ => Raise AxisError
  | Vec v => Ok (Scalar (norm v))
  | Mat _ rows => Ok (Vec (map norm rows))
  end.

(** [for v in a]: iteration along the first axis. *)
Definition iterate (a : ndarray F) : result (list (ndarray F)) :=
  match a with
  | Scalar _ => Raise TypeError
  | Vec v => Ok (map Scalar v)
  | Mat _ rows => Ok (map Vec rows)
  end.

(** Element-wise application of a scalar function. *)
Definition ndmap (f : F -> F) (a : ndarray F) : ndarray F :=
  match a with
  | Scalar x => Scalar (f x)
  | Vec v => Vec (map f v)
  | Mat m rows => Mat m (map (map f) rows)
  end.

Definition as_scalar (a : ndarray F) : result F :=
  match a with
  | Scalar x => Ok x
  | _ => Raise ValueError
  end.

Definition as_row (n : nat) (a : ndarray F) : result (list F) :=
  match a with
  | Vec v => if Nat.eqb (length v) n then Ok v else Raise ValueError
  | _ => Raise ValueError
  end.

(** [np.array(l)] for a list [l] of arrays: an empty list gives the empty
    rank-1 array, scalars give a rank-1 array, rank-1 arrays of one
    common length give a rank-2 array; anything else is refused. *)
Definition np_array (l : list (ndarray F)) : result (ndarray F) :=
  match l with
  | [] => Ok (Vec [])
  | Scalar _ :: _ => v <- mapM as_scalar l ;; Ok (Vec v)
  | Vec v0 :: _ => rows <- mapM (as_row (length v0)) l ;; Ok (Mat (length v0) rows)
  | Mat _ _ :: _ => Raise ValueError
  end.

(** [a[:, k]]: column [k] of a rank-2 array. *)
Definition column (k : nat) (a : ndarray F) : result (list F) :=
  match a with
  | Mat m rows =>
      if Nat.ltb k m then Ok (map (fun row => nth k row (of_int 0)) rows)
      else Raise IndexError
  | _ => Raise IndexError
  end.

(** [a.T] *)
Definition transpose (a : ndarray F) : ndarray F :=
  match a with
  | Mat m rows =>
      Mat (length rows)
          (map (fun j => map (fun row => nth j row (of_int 0)) rows) (seq 0 m))
  | _ => a
  end.

Definition as_vec (a : ndarray F) : result (list F) :=
  match a with
  | Vec v => Ok v
  | _ => Raise ValueError
  end.

Definition as_mat (m : nat) (a : ndarray F) : result (list (list F)) :=
  match a with
  | Mat m' rows => if Nat.eqb m' m then Ok rows else Raise ValueError
  | _ => Raise ValueError
  end.

(** [np.concatenate(l)] along the first axis: at least one array is
    needed, all of one rank (not zero) and, at rank 2, of one width. *)
Definition np_concatenate (l : list (ndarray F)) : result (ndarray F) :=
  match l with
  | [] => Raise ValueError
  | Scalar _ :: _ => Raise ValueError
  | Vec _ :: _ => vs <- mapM as_vec l ;; Ok (Vec (concat vs))
  | Mat m _ :: _ => rs <- mapM (as_mat m) l ;; Ok (Mat m (concat rs))
  end.

(** [a[i]]: item [i] along the first axis. *)
Definition item (i : nat) (a : ndarray F) : result (ndarray F) :=
  match a with
  | Scalar _ => Raise IndexError
  | Vec v =>
      match nth_error v i with
      | Some x => Ok (Scalar x)
      | None => Raise IndexError
      end
  | Mat _ rows =>
      match nth_error rows i with
      | Some row => Ok (Vec row)
      | None => Raise IndexError
      end
  end.


(** [2*np.pi] *)
Definition two_pi : F := of_int 2 *! np_pi.

(** [phi[phi<0] += 2*np.pi] *)
Definition wrap_negative (phi : list F) : list F :=
  map (fun p => if p <?! of_int 0 then p +! two_pi else p) phi.

(** *** The functions of [coordinates.py] *)

Definition cartesian_to_spherical (vector : ndarray F) : result (ndarray F) :=
  r <- np_linalg_norm_last_axis vector ;;
  vs <- iterate vector ;;
  unit <- np_array (map (fun v => ndmap (fun x => x /! np_linalg_norm v) v) vs) ;;
  unit_2 <- column 2 unit ;;
  let theta := map np_arcsin unit_2 in
  unit_0 <- column 0 unit ;;
  unit_1 <- column 1 unit ;;
  let phi := zip_with np_arctan2 unit_0 unit_1 in
  let phi := wrap_negative phi in
  coord <- np_array [r; Vec theta; Vec phi] ;;
  Ok (transpose coord).

Definition spherical_to_cartesian (vector : ndarray F) : result (ndarray F) :=
  vector_1 <- column 1 vector ;;
  let cos_theta := map np_cos vector_1 in
  vector_2 <- column 2 vector ;;
  vector_0 <- column 0 vector ;;
  let x := zip_with np_mul (zip_with np_mul vector_2 (map np_sin vector_0)) cos_theta in
  let y := zip_with np_mul (zip_with np_mul vector_2 (map np_cos vector_0)) cos_theta in
  let z := zip_with np_mul vector_2 (map np_sin vector_1) in
  xyz <- np_array [Vec x; Vec y; Vec z] ;;
  Ok (transpose xyz).

Definition celestial_to_cartesian (celestial_vect : ndarray F) : result (ndarray F) :=
  let celestial_vect := np_atleast_2d celestial_vect in
  spherical_to_cartesian celestial_vect.

Definition cartesian_to_celestial (cartesian_vect : ndarray F) : result (ndarray F) :=
  let cartesian_vect := np_atleast_2d cartesian_vect in
  spherical_vect <- cartesian_to_spherical cartesian_vect ;;
  D <- column 0 spherical_vect ;;
  dec <- column 1 spherical_vect ;;
  ra <- column 2 spherical_vect ;;
  a <- np_array [Vec ra; Vec dec; Vec D] ;;
  Ok (transpose a).

Definition Jacobian_in_celestial (celestial_vect : ndarray F) : result (ndarray F) :=
  d <- column 2 celestial_vect ;;
  theta <- column 1 celestial_vect ;;
  Ok (Vec (zip_with np_mul (zip_with np_mul d d) (map np_cos theta))).

Definition Jacobian (cartesian_vect : ndarray F) : result (ndarray F) :=
  celestial <- cartesian_to_celestial (np_atleast_2d cartesian_vect) ;;
  Jacobian_in_celestial celestial.

Definition inv_Jacobian (celestial_vect : ndarray F) : result (ndarray F) :=
  detJ <- Jacobian_in_celestial (np_atleast_2d celestial_vect) ;;
  Ok (ndmap (fun x => of_int 1 /! x) detJ).

(** The functions of the module, as values. *)
Inductive conversion : Type :=
| Cartesian_to_spherical
| Spherical_to_cartesian
| Celestial_to_cartesian
| Cartesian_to_celestial
| Jacobian_of_cartesian
| Inverse_Jacobian
| Jacobian_of_celestial.

Definition call (f : conversion) : ndarray F -> result (ndarray F) :=
  match f with
  | Cartesian_to_spherical => cartesian_to_spherical
  | Spherical_to_cartesian => spherical_to_cartesian
  | Celestial_to_cartesian => celestial_to_cartesian
  | Cartesian_to_celestial => cartesian_to_celestial
  | Jacobian_of_cartesian => Jacobian
  | Inverse_Jacobian => inv_Jacobian
  | Jacobian_of_celestial => Jacobian_in_celestial
  end.

(** Apply [f] to every row on its own, as a batch of one row, and
    concatenate the outputs. *)
Definition row_by_row (f : conversion) (m : nat) (rows : list (list F))
  : result (ndarray F) :=
  outs <- mapM (fun row => call f (Mat m [row])) rows ;;
  np_concatenate outs.

End Coordinates.

(** ** Row-wise descriptions

    What the specification says each function computes for one row of the
    batch.  They are compared with the array code above. *)

Section Rows.

Context {F : Type} {num : Num F}.
Local Open Scope num_scope.

(** Entry [k] of a row. *)
Definition entry (k : nat) (row : list F) : F := nth k row (of_int 0).

(** unit = row / row-norm *)
Definition unit_row (row : list F) : list F :=
  map (fun x => x /! norm row) row.

(** phi = atan2(unit.x, unit.y), plus 2 pi when negative *)
Definition azimuth (row : list F) : F :=
  let phi := np_arctan2 (entry 0 (unit_row row)) (entry 1 (unit_row row)) in
  if phi <?! of_int 0 then phi +! two_pi else phi.

(** theta = arcsin(unit.z) *)
Definition latitude (row : list F) : F :=
  np_arcsin (entry 2 (unit_row row)).

(** [r, theta, phi] *)
Definition spherical_row (row : list F) : list F :=
  [norm row; latitude row; azimuth row].

(** [ra, dec, D] = [phi, theta, r] *)
Definition celestial_row (row : list F) : list F :=
  [azimuth row; latitude row; norm row].

(** x = col2 sin(col0) cos(col1); y = col2 cos(col0) cos(col1);
    z = col2 sin(col1) *)
Definition cartesian_row (row : list F) : list F :=
  [entry 2 row *! np_sin (entry 0 row) *! np_cos (entry 1 row);
   entry 2 row *! np_cos (entry 0 row) *! np_cos (entry 1 row);
   entry 2 row *! np_sin (entry 1 row)].

(** D^2 cos(dec), with D in column 2 and dec in column 1 *)
Definition jacobian_row (row : list F) : F :=
  entry 2 row *! entry 2 row *! np_cos (entry 1 row).

(** 1 / (D^2 cos(dec)) *)
Definition inv_jacobian_row (row : list F) : F :=
  of_int 1 /! jacobian_row row.

(** What each function of the module returns on a batch of [N >= 1] rows
    of width 3: either the rows [g row] or the values [h row]. *)
Inductive row_wise (f : conversion) : Prop :=
| Row_wise_rows (g : list F -> list F)
    (Hg : forall rows, rows <> [] -> well_shaped 3 rows ->
          call f (Mat 3 rows) = Ok (Mat 3 (map g rows)))
| Row_wise_values (h : list F -> F)
    (Hh : forall rows, rows <> [] -> well_shaped 3 rows ->
          call f (Mat 3 rows) = Ok (Vec (map h rows))).

End Rows.

(** ** Exact real arithmetic *)

(** The two-argument arctangent, [atan2 y x], by the usual case analysis
    on the quadrant; [atan2 0 0 = 0] as for [np.arctan2(+0, +0)]. *)
Definition Ratan2 (y x : R) : R :=
  if Rlt_dec 0 x then atan (y / x)
  else if Rlt_dec x 0 then
    if Rle_dec 0 y then atan (y / x) + PI else atan (y / x) - PI
  else if Rlt_dec 0 y then PI / 2
  else if Rlt_dec y 0 then - (PI / 2)
  else 0.

Definition Rltb (x y : R) : bool := if Rlt_dec x y then true else false.

#[export] Instance real_num : Num R := {|
  of_int := IZR;
  np_add := Rplus;
  np_mul := Rmult;
  np_div := Rdiv;
  np_ltb := Rltb;
  np_sqrt := sqrt;
  np_sin := sin;
  np_cos := cos;
  np_arcsin := asin;
  np_arctan2 := Ratan2;
  np_pi := PI
|}.




(** ** IEEE-754 binary64 *)

(** The functions NumPy takes from the C mathematical library. *)
Record libm : Type := {
  c_sin : spec_float -> spec_float;
  c_cos : spec_float -> spec_float;
  c_asin : spec_float -> spec_float;
  c_atan2 : spec_float -> spec_float -> spec_float
}.

Definition prec : Z := 53.
Definition emax : Z := 1024.

(** The double nearest to pi, [0x400921FB54442D18]. *)
Definition pi_binary64 : spec_float := S754_finite false 7074237752028440 (-51).

Definition binary64 (m : libm) : Num spec_float := {|
  of_int := fun z => binary_normalize prec emax z 0 false;
  np_add := SFadd prec emax;
  np_mul := SFmul prec emax;
  np_div := SFdiv prec emax;
  np_ltb := SFltb;
  np_sqrt := SFsqrt prec emax;
  np_sin := c_sin m;
  np_cos := c_cos m;
  np_arcsin := c_asin m;
  np_arctan2 := c_atan2 m;
  np_pi := pi_binary64
|}.

Definition pos_infinity : spec_float := S754_infinity false.

(** A zero of either sign. *)
Definition is_zero (x : spec_float) : bool :=
  match x with
  | S754_zero _ => true
  | _ => false
  end.

(** A finite float strictly above zero. *)
Definition is_positive_finite (x : spec_float) : bool :=
  match x with
  | S754_finite false _ _ => true
  | _ => false
  end.

(** The values of the C functions at the argument 0 ([sin 0 = 0],
    [cos 0 = 1], [asin 0 = 0], [atan2(0, 0) = 0]), extended to constant
    functions: enough to run the binary64 code on inputs whose angles are
    all 0. *)
Definition libm_at_zero : libm := {|
  c_sin := fun _ => S754_zero false;
  c_cos := fun _ => S754_finite false 4503599627370496 (-52);
  c_asin := fun _ => S754_zero false;
  c_atan2 := fun _ _ => S754_zero false
|}.

(** ** Vocabulary for the further properties *)

(** The functions that call [np.atleast_2d] on their argument. *)
Definition promotes (f : conversion) : bool :=
  match f with
  | Celestial_to_cartesian | Cartesian_to_celestial
  | Jacobian_of_cartesian | Inverse_Jacobian => true
  | _ => false
  end.

(** The functions that only read columns of their (promoted) argument,
    without iterating over its rows or taking norms. *)
Definition reads_columns_only (f : conversion) : bool :=
  match f with
  | Spherical_to_cartesian | Celestial_to_cartesian
  | Inverse_Jacobian | Jacobian_of_celestial => true
  | _ => false
  end.


Definition nan : spec_float := S754_nan.

Definition neg_infinity : spec_float := S754_infinity true.

(** A finite float strictly below zero. *)
Definition is_negative_finite (x : spec_float) : bool :=
  match x with
  | S754_finite true _ _ => true
  | _ => false
  end.

(** The values of the C functions at NaN arguments, which are NaN,
    extended to constant functions: enough to run the binary64 code on
    inputs whose angles are all NaN. *)
Definition libm_at_nan : libm := {|
  c_sin := fun _ => S754_nan;
  c_cos := fun _ => S754_nan;
  c_asin := fun _ => S754_nan;
  c_atan2 := fun _ _ => S754_nan
|}.

(** The values of the C functions at the double nearest pi
    ([sin = 1.2246467991473532e-16], [cos = -1], [asin] out of its
    domain, [atan2(pi, pi) = pi/4]), extended to constant functions:
    enough to run the binary64 code on inputs whose angles are all that
    double. *)
Definition libm_at_pi : libm := {|
  c_sin := fun _ => S754_finite false 4967757600021511 (-105);
  c_cos := fun _ => S754_finite true 4503599627370496 (-52);
  c_asin := fun _ => S754_nan;
  c_atan2 := fun _ _ => S754_finite false 7074237752028440 (-53)
|}.

(** * Properties *)

(** ** Lists and the error monad *)

Lemma zip_with_map {A B C D : Type} (g : B -> C -> D) (f1 : A -> B) (f2 : A -> C)
  (l : list A) :
  zip_with g (map f1 l) (map f2 l) = map (fun a => g (f1 a) (f2 a)) l.
Proof.
  induction l as [| a l IH]; simpl; [reflexivity | now rewrite IH].
Qed.

Lemma map_seq_nth {A B : Type} (h : A -> B) (d : A) (l : list A) (g : nat -> B) :
  (forall j, (j < length l)%nat -> g j = h (nth j l d)) ->
  map g (seq 0 (length l)) = map h l.
Proof.
  revert g. induction l as [| a l IH]; intros g Hg; simpl.
  - reflexivity.
  - rewrite (Hg 0%nat) by (simpl; lia). simpl. f_equal.
    rewrite <- seq_shift, map_map. apply IH.
    intros j Hj. rewrite (Hg (S j)) by (simpl; lia). reflexivity.
Qed.

Lemma mapM_ok {A A' B : Type} (h : A -> A') (f : A' -> result B) (g : A -> B)
  (l : list A) :
  Forall (fun a => f (h a) = Ok (g a)) l -> mapM f (map h l) = Ok (map g l).
Proof.
  induction 1 as [| a l Ha _ IH]; simpl; [reflexivity |].
  now rewrite Ha, IH.
Qed.

Lemma concat_singletons {A B : Type} (g : A -> B) (l : list A) :
  concat (map (fun a => [g a]) l) = map g l.
Proof.
  induction l as [| a l IH]; simpl; [reflexivity | now rewrite IH].
Qed.

(** ** The array code, row by row *)

Section Batches.

Context {F : Type} {num : Num F}.
Local Open Scope num_scope.

Lemma np_array_columns {A : Type} (f0 f1 f2 : A -> F) (l : list A) :
  np_array [Vec (map f0 l); Vec (map f1 l); Vec (map f2 l)]
  = Ok (Mat (length l) [map f0 l; map f1 l; map f2 l]).
Proof.
  unfold np_array, mapM, as_row. rewrite !length_map, Nat.eqb_refl.
  reflexivity.
Qed.

Lemma transpose_columns {A : Type} (f0 f1 f2 : A -> F) (l : list A) :
  transpose (Mat (length l) [map f0 l; map f1 l; map f2 l])
  = Mat 3 (map (fun a => [f0 a; f1 a; f2 a]) l).
Proof.
  unfold transpose. simpl length. f_equal.
  destruct l as [| a0 l0] eqn:El; [reflexivity |]. rewrite <- El.
  apply (map_seq_nth (fun a => [f0 a; f1 a; f2 a]) a0).
  intros j Hj. cbn [map].
  rewrite (nth_indep _ (of_int 0) (f0 a0)) by (rewrite length_map; exact Hj).
  rewrite (nth_indep _ (of_int 0) (f1 a0)) by (rewrite length_map; exact Hj).
  rewrite (nth_indep _ (of_int 0) (f2 a0)) by (rewrite length_map; exact Hj).
  now rewrite !map_nth.
Qed.

Lemma stack_columns {A : Type} (f0 f1 f2 : A -> F) (l : list A) :
  (a <- np_array [Vec (map f0 l); Vec (map f1 l); Vec (map f2 l)] ;;
   Ok (transpose a))
  = Ok (Mat 3 (map (fun a => [f0 a; f1 a; f2 a]) l)).
Proof.
  rewrite np_array_columns. cbn [bind]. now rewrite transpose_columns.
Qed.

Lemma column_rows (k m : nat) (rows : list (list F)) :
  (k < m)%nat -> column k (Mat m rows) = Ok (map (entry k) rows).
Proof.
  intros Hk. unfold column. apply Nat.ltb_lt in Hk. now rewrite Hk.
Qed.

Lemma column_map {A : Type} (k m : nat) (g : A -> list F) (l : list A) :
  (k < m)%nat -> column k (Mat m (map g l)) = Ok (map (fun a => entry k (g a)) l).
Proof.
  intros Hk. rewrite column_rows by exact Hk. now rewrite map_map.
Qed.

Lemma length_unit_row (row : list F) : length (unit_row row) = length row.
Proof. unfold unit_row. apply length_map. Qed.

(** The array of unit vectors built by the list comprehension. *)
Lemma unit_vectors (m : nat) (rows : list (list F)) :
  rows <> [] -> well_shaped m rows ->
  np_array (map (fun v => ndmap (fun x => x /! np_linalg_norm v) v) (map Vec rows))
  = Ok (Mat m (map unit_row rows)).
Proof.
  intros Hne Hws. rewrite map_map. simpl.
  destruct rows as [| r0 rest]; [congruence |].
  assert (Hlen : length (map (fun x => x /! norm r0) r0) = m).
  { rewrite length_map. now inversion Hws. }
  unfold np_array. cbn [map]. rewrite Hlen.
  change (Vec (map (fun x => x /! norm r0) r0)
          :: map (fun x => Vec (map (fun x0 => x0 /! norm x) x)) rest)
    with (map (fun row => Vec (unit_row row)) (r0 :: rest)).
  rewrite (mapM_ok _ _ unit_row).
  - reflexivity.
  - eapply Forall_impl; [| exact Hws].
    intros row Hrow. cbn. rewrite length_unit_row, Hrow, Nat.eqb_refl.
    reflexivity.
Qed.

Lemma cartesian_to_spherical_batch (rows : list (list F)) :
  rows <> [] -> well_shaped 3 rows ->
  cartesian_to_spherical (Mat 3 rows) = Ok (Mat 3 (map spherical_row rows)).
Proof.
  intros Hne Hws. unfold cartesian_to_spherical.
  cbn [np_linalg_norm_last_axis iterate bind].
  rewrite (unit_vectors 3 rows Hne Hws). cbn [bind].
  rewrite !column_map by lia. cbn [bind].
  unfold wrap_negative. rewrite zip_with_map, !map_map.
  apply stack_columns.
Qed.

Lemma spherical_to_cartesian_batch (rows : list (list F)) :
  spherical_to_cartesian (Mat 3 rows) = Ok (Mat 3 (map cartesian_row rows)).
Proof.
  unfold spherical_to_cartesian.
  rewrite !column_rows by lia. cbn [bind].
  rewrite !map_map, !zip_with_map.
  apply stack_columns.
Qed.

Lemma cartesian_to_celestial_batch (rows : list (list F)) :
  rows <> [] -> well_shaped 3 rows ->
  cartesian_to_celestial (Mat 3 rows) = Ok (Mat 3 (map celestial_row rows)).
Proof.
  intros Hne Hws. unfold cartesian_to_celestial. cbn [np_atleast_2d].
  rewrite (cartesian_to_spherical_batch rows Hne Hws). cbn [bind].
  rewrite !column_map by lia. cbn [bind].
  apply (stack_columns (fun a => entry 2 (spherical_row a))
           (fun a => entry 1 (spherical_row a)) (fun a => entry 0 (spherical_row a))).
Qed.

Lemma Jacobian_in_celestial_batch (rows : list (list F)) :
  Jacobian_in_celestial (Mat 3 rows) = Ok (Vec (map jacobian_row rows)).
Proof.
  unfold Jacobian_in_celestial.
  rewrite !column_rows by lia. cbn [bind].
  now rewrite map_map, !zip_with_map.
Qed.

Lemma Jacobian_batch (rows : list (list F)) :
  rows <> [] -> well_shaped 3 rows ->
  Jacobian (Mat 3 rows)
  = Ok (Vec (map (fun row => jacobian_row (celestial_row row)) rows)).
Proof.
  intros Hne Hws. unfold Jacobian. cbn [np_atleast_2d].
  rewrite (cartesian_to_celestial_batch rows Hne Hws). cbn [bind].
  now rewrite Jacobian_in_celestial_batch, map_map.
Qed.

Lemma inv_Jacobian_batch (rows : list (list F)) :
  inv_Jacobian (Mat 3 rows) = Ok (Vec (map inv_jacobian_row rows)).
Proof.
  unfold inv_Jacobian. cbn [np_atleast_2d].
  rewrite Jacobian_in_celestial_batch. cbn [bind ndmap].
  now rewrite map_map.
Qed.

(** On the empty batch the list comprehension yields an empty list, from
    which [np.array] builds a rank-1 array: the column indexing that
    follows raises.  The two functions that index their argument
    directly accept the empty batch. *)
Lemma cartesian_to_spherical_empty_batch :
  cartesian_to_spherical (Mat 3 []) = Raise IndexError.
Proof. reflexivity. Qed.

Lemma spherical_to_cartesian_empty_batch :
  spherical_to_cartesian (Mat 3 []) = Ok (Mat 3 []).
Proof. reflexivity. Qed.

(** Promotion of a single vector to a batch of one row. *)
Lemma np_atleast_2d_vector (v : list F) :
  length v = 3%nat -> np_atleast_2d (Vec v) = Mat 3 [v].
Proof. intros Hv. cbn. now rewrite Hv. Qed.

Lemma well_shaped_single (m : nat) (row : list F) :
  length row = m -> well_shaped m [row].
Proof. intros H. constructor; [exact H | constructor]. Qed.

End Batches.

(** ** Trigonometry over the reals *)

Section RealTrigonometry.

Local Open Scope R_scope.





(** The two-argument arctangent takes its values in (-pi, pi]. *)
Lemma Ratan2_bound (y x : R) : - PI < Ratan2 y x <= PI.
Proof.
  pose proof PI_RGT_0 as Hpi.
  pose proof (atan_bound (y / x)) as Hb.
  unfold Ratan2.
  destruct (Rlt_dec 0 x) as [Hx | Hx]; [lra |].
  destruct (Rlt_dec x 0) as [Hx' | Hx'].
  - destruct (Rle_dec 0 y) as [Hy | Hy].
    + assert (Ht : y / x <= 0).
      { pose proof (Rinv_lt_0_compat x Hx'). unfold Rdiv. nra. }
      assert (atan (y / x) <= 0).
      { destruct Ht as [Ht | Ht].
        - left. rewrite <- atan_0. now apply atan_increasing.
        - rewrite Ht, atan_0. lra. }
      lra.
    + assert (Ht : 0 < y / x).
      { replace (y / x) with ((- y) * / (- x)) by (field; lra).
        apply Rmult_lt_0_compat; [lra |]. apply Rinv_0_lt_compat. lra. }
      assert (0 < atan (y / x)).
      { rewrite <- atan_0. now apply atan_increasing. }
      lra.
  - destruct (Rlt_dec 0 y); [lra |]. destruct (Rlt_dec y 0); lra.
Qed.

End RealTrigonometry.

(** ** The conversions over the reals, one row at a time *)

Section RealRows.

Local Open Scope R_scope.

Lemma norm_real (x y z : R) : norm [x; y; z] = sqrt (x * x + y * y + z * z).
Proof. unfold norm. cbn. now rewrite Rplus_0_l. Qed.

Lemma Rltb_true (x y : R) : Rltb x y = true <-> x < y.
Proof. unfold Rltb. destruct (Rlt_dec x y); split; intros; congruence || lra. Qed.

Lemma latitude_real (x y z : R) :
  latitude [x; y; z] = asin (z / norm [x; y; z]).
Proof. reflexivity. Qed.

Lemma azimuth_real (x y z : R) :
  let phi := Ratan2 (x / norm [x; y; z]) (y / norm [x; y; z]) in
  azimuth [x; y; z] = if Rltb phi 0 then phi + 2 * PI else phi.
Proof. reflexivity. Qed.



(** The azimuth lies in [0, 2 pi). *)
Lemma azimuth_bound (x y z : R) : 0 <= azimuth [x; y; z] < 2 * PI.
Proof.
  rewrite azimuth_real. cbv zeta.
  pose proof (Ratan2_bound (x / norm [x; y; z]) (y / norm [x; y; z])) as Hb.
  pose proof PI_RGT_0.
  destruct (Rltb _ 0) eqn:E.
  - apply Rltb_true in E. lra.
  - assert (~ Ratan2 (x / norm [x; y; z]) (y / norm [x; y; z]) < 0).
    { intros Hlt. apply Rltb_true in Hlt. congruence. }
    lra.
Qed.

(** The latitude lies in [-pi/2, pi/2]. *)
Lemma latitude_bound (x y z : R) : - (PI / 2) <= latitude [x; y; z] <= PI / 2.
Proof. rewrite latitude_real. apply asin_bound. Qed.

Section NonZero.

Variables x y z : R.
Hypothesis norm_nonzero : norm [x; y; z] <> 0.

Lemma norm_pos : 0 < (norm [x; y; z]).
Proof.
  assert (0 <= (norm [x; y; z])) by (rewrite norm_real; apply sqrt_pos). lra.
Qed.

Lemma norm_sqr : (norm [x; y; z]) * (norm [x; y; z]) = x * x + y * y + z * z.
Proof.
  rewrite norm_real. apply sqrt_sqrt. nra.
Qed.

Lemma unit_z_range : -1 <= z / (norm [x; y; z]) <= 1.
Proof.
  pose proof norm_pos as Hn. pose proof norm_sqr as Hs.
  assert (- (norm [x; y; z]) <= z <= (norm [x; y; z])) by (split; nra).
  split.
  - apply Rmult_le_reg_r with (norm [x; y; z]); [exact Hn |].
    unfold Rdiv. rewrite Rmult_assoc, Rinv_l by lra. lra.
  - apply Rmult_le_reg_r with (norm [x; y; z]); [exact Hn |].
    unfold Rdiv. rewrite Rmult_assoc, Rinv_l by lra. lra.
Qed.


Lemma cos_latitude :
  cos (latitude [x; y; z]) = sqrt (y / (norm [x; y; z]) * (y / (norm [x; y; z])) + x / (norm [x; y; z]) * (x / (norm [x; y; z]))).
Proof.
  rewrite latitude_real. rewrite cos_asin by apply unit_z_range.
  f_equal. unfold Rsqr. pose proof norm_sqr as Hs. pose proof norm_pos.
  apply Rmult_eq_reg_r with ((norm [x; y; z]) * (norm [x; y; z])); [| nra].
  field_simplify; [| lra | lra]. nra.
Qed.


End NonZero.

End RealRows.

(** ** The claims that hold for every interpretation of the scalars *)

Section Generic.

Context {F : Type} {num : Num F}.
Local Open Scope num_scope.

Lemma nth_error_map_some {A B : Type} (g : A -> B) (l : list A) (i : nat) {a : A} :
  nth_error l i = Some a -> nth_error (map g l) i = Some (g a).
Proof. intros H. now rewrite nth_error_map, H. Qed.

Lemma spherical_row_explicit (x y z : F) :
  spherical_row [x; y; z]
  = [norm [x; y; z];
     np_arcsin (z /! norm [x; y; z]);
     if np_arctan2 (x /! norm [x; y; z]) (y /! norm [x; y; z]) <?! of_int 0
     then np_arctan2 (x /! norm [x; y; z]) (y /! norm [x; y; z]) +! two_pi
     else np_arctan2 (x /! norm [x; y; z]) (y /! norm [x; y; z])].
Proof. reflexivity. Qed.

(** Concatenating the one-row results gives the row-wise map back. *)
Lemma np_concatenate_rows {A : Type} (g : A -> list F) (l : list A) :
  l <> [] ->
  np_concatenate (map (fun a => Mat 3 [g a]) l) = Ok (Mat 3 (map g l)).
Proof.
  intros Hne. destruct l as [| a0 l0] eqn:El; [congruence |]. rewrite <- El.
  assert (Hhead : np_concatenate (map (fun a => Mat 3 [g a]) l)
                  = (rs <- mapM (as_mat 3) (map (fun a => Mat 3 [g a]) l) ;;
                     Ok (Mat 3 (concat rs)))).
  { rewrite El. reflexivity. }
  rewrite Hhead, (mapM_ok _ _ (fun a => [g a])).
  - cbn [bind]. now rewrite concat_singletons.
  - apply Forall_forall. intros a _. reflexivity.
Qed.

Lemma np_concatenate_values {A : Type} (g : A -> F) (l : list A) :
  l <> [] ->
  np_concatenate (map (fun a => Vec [g a]) l) = Ok (Vec (map g l)).
Proof.
  intros Hne. destruct l as [| a0 l0] eqn:El; [congruence |]. rewrite <- El.
  assert (Hhead : np_concatenate (map (fun a => Vec [g a]) l)
                  = (vs <- mapM as_vec (map (fun a => Vec [g a]) l) ;;
                     Ok (Vec (concat vs)))).
  { rewrite El. reflexivity. }
  rewrite Hhead, (mapM_ok _ _ (fun a => [g a])).
  - cbn [bind]. now rewrite concat_singletons.
  - apply Forall_forall. intros a _. reflexivity.
Qed.

Lemma every_conversion_row_wise (f : conversion) : row_wise f.
Proof.
  destruct f.
  - apply Row_wise_rows with spherical_row. intros rows Hne Hws.
    now apply cartesian_to_spherical_batch.
  - apply Row_wise_rows with cartesian_row. intros rows _ _.
    apply spherical_to_cartesian_batch.
  - apply Row_wise_rows with cartesian_row. intros rows _ _.
    apply spherical_to_cartesian_batch.
  - apply Row_wise_rows with celestial_row. intros rows Hne Hws.
    now apply cartesian_to_celestial_batch.
  - apply Row_wise_values with (fun row => jacobian_row (celestial_row row)).
    intros rows Hne Hws. now apply Jacobian_batch.
  - apply Row_wise_values with inv_jacobian_row. intros rows _ _.
    apply inv_Jacobian_batch.
  - apply Row_wise_values with jacobian_row. intros rows _ _.
    apply Jacobian_in_celestial_batch.
Qed.

End Generic.

Section GenericClaims.

Context {F : Type} {num : Num F}.
Local Open Scope num_scope.

(** C5.  On a batch of [N >= 1] rows of width 3, [cartesian_to_spherical]
    returns an [(N, 3)] array whose row [i] is computed from input row
    [i = [x, y, z]] alone: r is the Euclidean norm of the row, the unit
    vector is the row divided by its norm, theta is the arcsine of the
    unit vector's z, phi is [arctan2(unit.x, unit.y)] with 2 pi added
    when it is negative, and the output row is [[r, theta, phi]].  On the
    empty [(0, 3)] batch it raises [IndexError] instead of returning the
    empty [(0, 3)] array, which [spherical_to_cartesian] does return. *)
Theorem cartesian_to_spherical_per_row :
  (forall rows : list (list F),
     rows <> [] -> well_shaped 3 rows ->
     exists out,
       cartesian_to_spherical (Mat 3 rows) = Ok (Mat 3 out) /\
       length out = length rows /\
       forall i x y z, nth_error rows i = Some [x; y; z] ->
         let r := norm [x; y; z] in
         let unit := [x /! r; y /! r; z /! r] in
         let theta := np_arcsin (entry 2 unit) in
         let phi := np_arctan2 (entry 0 unit) (entry 1 unit) in
         nth_error out i
         = Some [r; theta; if phi <?! of_int 0 then phi +! two_pi else phi]) /\
  cartesian_to_spherical (Mat 3 []) = Raise IndexError /\
  spherical_to_cartesian (Mat 3 []) = Ok (Mat 3 []).
Proof.
  split; [| split].
  - intros rows Hne Hws. exists (map spherical_row rows). split; [| split].
    + now apply cartesian_to_spherical_batch.
    + apply length_map.
    + intros i x y z Hi. cbv zeta.
      rewrite (nth_error_map_some spherical_row rows i Hi).
      now rewrite spherical_row_explicit.
  - exact cartesian_to_spherical_empty_batch.
  - exact spherical_to_cartesian_empty_batch.
Qed.

(** C7.  [Jacobian] is [Jacobian_in_celestial] after
    [cartesian_to_celestial], applied to the promoted input; when the
    promoted input has [N >= 1] rows of width 3 the result is a rank-1
    array of [N] values, the value for a row being the determinant at
    that row's celestial coordinates.  On the empty [(0, 3)] batch it
    raises [IndexError] instead of returning the array of no value, which
    [Jacobian_in_celestial] does return. *)
Theorem Jacobian_is_composition :
  (forall a : ndarray F,
     Jacobian a
     = (c <- cartesian_to_celestial (np_atleast_2d a) ;; Jacobian_in_celestial c)) /\
  (forall (a : ndarray F) (rows : list (list F)),
     np_atleast_2d a = Mat 3 rows -> rows <> [] -> well_shaped 3 rows ->
     exists out,
       Jacobian a = Ok (Vec out) /\
       length out = length rows /\
       forall i row, nth_error rows i = Some row ->
         nth_error out i = Some (jacobian_row (celestial_row row))) /\
  Jacobian (Mat 3 []) = Raise IndexError /\
  Jacobian_in_celestial (Mat 3 []) = Ok (Vec []).
Proof.
  split; [reflexivity |]. split; [| split; reflexivity].
  intros a rows Ha Hne Hws.
  exists (map (fun row => jacobian_row (celestial_row row)) rows).
  split; [| split].
  - unfold Jacobian. rewrite Ha.
    apply (Jacobian_batch rows Hne Hws).
  - apply length_map.
  - intros i row Hi.
    apply (nth_error_map_some (fun r => jacobian_row (celestial_row r)) rows i Hi).
Qed.

(** C9.  For each of the seven functions of the module and every batch
    of rows of width 3: for every row [i] of the batch, the function
    succeeds on the batch and on the batch holding that row alone, and
    item [i] of the first result is item 0 of the second, so it depends
    on no other row; and when the batch has at least one row, applying
    the function to every row as a batch of one row and concatenating
    gives the same array as applying it to the batch. *)
Theorem batch_invariance (f : conversion) (rows : list (list F)) :
  well_shaped 3 rows ->
  (forall i row, nth_error rows i = Some row ->
     exists o,
       (out <- call f (Mat 3 rows) ;; item i out) = Ok o /\
       (out <- call f (Mat 3 [row]) ;; item 0 out) = Ok o) /\
  (rows <> [] ->
     (exists out, call f (Mat 3 rows) = Ok out) /\
     row_by_row f 3 rows = call f (Mat 3 rows)).
Proof.
  intros Hws.
  assert (Hone : forall row, In row rows -> [row] <> [] /\ well_shaped 3 [row]).
  { intros row Hin. split; [discriminate |].
    apply well_shaped_single. unfold well_shaped in Hws.
    rewrite Forall_forall in Hws. now apply Hws. }
  assert (Hsome : forall i row, nth_error rows i = Some row -> rows <> []).
  { intros i row Hi ->. destruct i; discriminate Hi. }
  destruct (every_conversion_row_wise f) as [g Hg | h Hh]; split.
  - intros i row Hi.
    destruct (Hone row (nth_error_In _ _ Hi)) as [H1 H2].
    rewrite (Hg rows (Hsome i row Hi) Hws), (Hg [row] H1 H2).
    exists (Vec (g row)). cbn [bind item map nth_error].
    now rewrite (nth_error_map_some g rows i Hi).
  - intros Hne. rewrite (Hg rows Hne Hws). split; [eauto |].
    unfold row_by_row. rewrite <- (map_id rows) at 1.
    rewrite (mapM_ok _ _ (fun row => Mat 3 [g row])).
    + cbn [bind]. now apply np_concatenate_rows.
    + apply Forall_forall. intros row Hin.
      destruct (Hone row Hin) as [H1 H2]. apply (Hg [row] H1 H2).
  - intros i row Hi.
    destruct (Hone row (nth_error_In _ _ Hi)) as [H1 H2].
    rewrite (Hh rows (Hsome i row Hi) Hws), (Hh [row] H1 H2).
    exists (Scalar (h row)). cbn [bind item map nth_error].
    now rewrite (nth_error_map_some h rows i Hi).
  - intros Hne. rewrite (Hh rows Hne Hws). split; [eauto |].
    unfold row_by_row. rewrite <- (map_id rows) at 1.
    rewrite (mapM_ok _ _ (fun row => Vec [h row])).
    + cbn [bind]. now apply np_concatenate_values.
    + apply Forall_forall. intros row Hin.
      destruct (Hone row Hin) as [H1 H2]. apply (Hh [row] H1 H2).
Qed.

(** C10.  On a single rank-1 vector of three entries,
    [celestial_to_cartesian], [cartesian_to_celestial], [Jacobian] and
    [inv_Jacobian] act as on the batch holding that one row, and succeed;
    [cartesian_to_spherical] and [spherical_to_cartesian] (and
    [Jacobian_in_celestial]) do not promote: their column indexing raises
    [IndexError]. *)
Theorem promotion_of_single_vector (v : list F) :
  length v = 3%nat ->
  (celestial_to_cartesian (Vec v) = celestial_to_cartesian (Mat 3 [v]) /\
   celestial_to_cartesian (Vec v) = Ok (Mat 3 [cartesian_row v])) /\
  (cartesian_to_celestial (Vec v) = cartesian_to_celestial (Mat 3 [v]) /\
   cartesian_to_celestial (Vec v) = Ok (Mat 3 [celestial_row v])) /\
  (Jacobian (Vec v) = Jacobian (Mat 3 [v]) /\
   Jacobian (Vec v) = Ok (Vec [jacobian_row (celestial_row v)])) /\
  (inv_Jacobian (Vec v) = inv_Jacobian (Mat 3 [v]) /\
   inv_Jacobian (Vec v) = Ok (Vec [inv_jacobian_row v])) /\
  cartesian_to_spherical (Vec v) = Raise IndexError /\
  spherical_to_cartesian (Vec v) = Raise IndexError /\
  Jacobian_in_celestial (Vec v) = Raise IndexError.
Proof.
  intros Hv.
  assert (Hne : [v] <> []) by discriminate.
  pose proof (well_shaped_single 3 v Hv) as Hws.
  pose proof (np_atleast_2d_vector v Hv) as Hp.
  assert (E1 : celestial_to_cartesian (Vec v) = celestial_to_cartesian (Mat 3 [v])).
  { unfold celestial_to_cartesian. now rewrite Hp. }
  assert (E2 : cartesian_to_celestial (Vec v) = cartesian_to_celestial (Mat 3 [v])).
  { unfold cartesian_to_celestial. now rewrite Hp. }
  assert (E3 : Jacobian (Vec v) = Jacobian (Mat 3 [v])).
  { unfold Jacobian. now rewrite Hp. }
  assert (E4 : inv_Jacobian (Vec v) = inv_Jacobian (Mat 3 [v])).
  { unfold inv_Jacobian. now rewrite Hp. }
  split; [split; [exact E1 |] | split; [split; [exact E2 |] |
    split; [split; [exact E3 |] | split; [split; [exact E4 |] | ]]]].
  - rewrite E1. apply (spherical_to_cartesian_batch [v]).
  - rewrite E2. apply (cartesian_to_celestial_batch [v] Hne Hws).
  - rewrite E3. apply (Jacobian_batch [v] Hne Hws).
  - rewrite E4. apply (inv_Jacobian_batch [v]).
  - split; [| split; reflexivity].
    destruct v as [| a [| b [| c [| ? ?]]]]; try discriminate Hv.
    reflexivity.
Qed.

End GenericClaims.

(** ** The claims about the values, over the reals *)

Section RealClaims.

Local Open Scope R_scope.

Lemma row_of_width_3 {A : Type} (row : list A) :
  length row = 3%nat -> exists x y z, row = [x; y; z].
Proof.
  destruct row as [| x [| y [| z [| ? ?]]]]; try discriminate. eauto.
Qed.



Lemma norm_x_axis : norm [1; 0; 0] = 1.
Proof.
  rewrite norm_real. replace (1 * 1 + 0 * 0 + 0 * 0) with 1 by ring.
  apply sqrt_1.
Qed.

Lemma norm_z_axis : norm [0; 0; 1] = 1.
Proof.
  rewrite norm_real. replace (0 * 0 + 0 * 0 + 1 * 1) with 1 by ring.
  apply sqrt_1.
Qed.

Lemma Rltb_false (x y : R) : y <= x -> Rltb x y = false.
Proof. intros H. unfold Rltb. destruct (Rlt_dec x y); [lra | reflexivity]. Qed.


Lemma Ratan2_0_0 : Ratan2 0 0 = 0.
Proof.
  unfold Ratan2. destruct (Rlt_dec 0 0); [lra | reflexivity].
Qed.



Lemma latitude_z_axis : latitude [0; 0; 1] = PI / 2.
Proof.
  rewrite latitude_real, norm_z_axis.
  replace (1 / 1) with 1 by field. apply asin_1.
Qed.

Lemma azimuth_z_axis : azimuth [0; 0; 1] = 0.
Proof.
  rewrite azimuth_real, norm_z_axis. cbv zeta.
  replace (0 / 1) with 0 by field.
  rewrite Ratan2_0_0. now rewrite Rltb_false by lra.
Qed.



Lemma spherical_row_z_axis : spherical_row [0; 0; 1] = [1; PI / 2; 0].
Proof.
  unfold spherical_row.
  now rewrite norm_z_axis, latitude_z_axis, azimuth_z_axis.
Qed.





End RealClaims.

Section RealTheorems.

Local Open Scope R_scope.





(** C3.  For every interpretation of the scalars and every batch of rows
    of width 3, [Jacobian_in_celestial] returns one value per row, the
    value for the row [[ra, dec, D]] being [D * D * cos(dec)]; over the
    reals the row [[0, 0, 2]] gives 4 and the row [[0, pi/3, 2]] gives
    2. *)
Theorem Jacobian_in_celestial_value :
  (forall (F : Type) (num : Num F) (rows : list (list F)),
     well_shaped 3 rows ->
     exists out,
       Jacobian_in_celestial (Mat 3 rows) = Ok (Vec out) /\
       length out = length rows /\
       forall i ra dec D, nth_error rows i = Some [ra; dec; D] ->
         nth_error out i = Some (D *! D *! np_cos dec)%num) /\
  Jacobian_in_celestial (Mat 3 [[0; 0; 2]]) = Ok (Vec [4]) /\
  Jacobian_in_celestial (Mat 3 [[0; PI / 3; 2]]) = Ok (Vec [2]).
Proof.
  split; [| split].
  - intros F num rows _. exists (map jacobian_row rows). split; [| split].
    + apply Jacobian_in_celestial_batch.
    + apply length_map.
    + intros i ra dec D Hi.
      apply (nth_error_map_some jacobian_row rows i Hi).
  - rewrite Jacobian_in_celestial_batch. cbn [map].
    unfold jacobian_row, entry. cbn [nth np_mul np_cos real_num].
    rewrite cos_0. replace (2 * 2 * 1) with 4 by ring. reflexivity.
  - rewrite Jacobian_in_celestial_batch. cbn [map].
    unfold jacobian_row, entry. cbn [nth np_mul np_cos real_num].
    rewrite cos_PI3. replace (2 * 2 * (1 / 2)) with 2 by field. reflexivity.
Qed.

(** C6, as amended.  Over the reals, for every batch of rows of width 3
    and positive norm, whatever [cartesian_to_spherical] returns is an
    array of as many rows, in each of which phi (column 2) lies in
    [0, 2 pi) and theta (column 1) lies in [-pi/2, pi/2]; and it does
    return when the batch has at least one row. *)
Theorem spherical_angles_in_range (rows : list (list R)) :
  well_shaped 3 rows ->
  Forall (fun row => 0 < norm row) rows ->
  (forall out, cartesian_to_spherical (Mat 3 rows) = Ok out ->
     exists orows,
       out = Mat 3 orows /\
       length orows = length rows /\
       Forall (fun o => 0 <= entry 2 o < 2 * PI /\
                        - (PI / 2) <= entry 1 o <= PI / 2) orows) /\
  (rows <> [] -> exists out, cartesian_to_spherical (Mat 3 rows) = Ok out).
Proof.
  intros Hws _.
  assert (Hbound : Forall (fun o => 0 <= entry 2 o < 2 * PI /\
                                    - (PI / 2) <= entry 1 o <= PI / 2)
                     (map spherical_row rows)).
  { apply Forall_map. eapply Forall_impl; [| exact Hws].
    intros row Hrow. destruct (row_of_width_3 row Hrow) as (x & y & z & ->).
    split; [exact (azimuth_bound x y z) | exact (latitude_bound x y z)]. }
  split.
  - intros out Hout. destruct rows as [| r0 rest] eqn:Erows.
    + rewrite cartesian_to_spherical_empty_batch in Hout. discriminate Hout.
    + rewrite <- Erows in *.
      rewrite (cartesian_to_spherical_batch rows) in Hout;
        [| rewrite Erows; discriminate | exact Hws].
      injection Hout as <-. exists (map spherical_row rows).
      split; [reflexivity |]. split; [apply length_map | exact Hbound].
  - intros Hne. exists (Mat 3 (map spherical_row rows)).
    now apply cartesian_to_spherical_batch.
Qed.

(** C8.  Over the reals, [cartesian_to_spherical] on the row [[0,0,1]]
    returns r = 1, theta = pi/2 and phi = 0; the unit vector has x = 0
    and y = 0, and phi is [arctan2(0, 0) = 0]. *)
Theorem spherical_of_z_axis :
  cartesian_to_spherical (Mat 3 [[0; 0; 1]]) = Ok (Mat 3 [[1; PI / 2; 0]]) /\
  entry 0 (unit_row [0; 0; 1]) = 0 /\
  entry 1 (unit_row [0; 0; 1]) = 0 /\
  np_arctan2 0 0 = 0.
Proof.
  split; [| split; [| split]].
  - rewrite (cartesian_to_spherical_batch [[0; 0; 1]]);
      [| discriminate | now apply well_shaped_single].
    cbn [map]. now rewrite spherical_row_z_axis.
  - unfold unit_row, entry. cbn [map nth]. rewrite norm_z_axis.
    cbn [np_div real_num]. field.
  - unfold unit_row, entry. cbn [map nth]. rewrite norm_z_axis.
    cbn [np_div real_num]. field.
  - exact Ratan2_0_0.
Qed.

End RealTheorems.

(** ** Division by a zero determinant in binary64 *)

Section Binary64.

Variable m : libm.

Lemma one_binary64 :
  @of_int _ (binary64 m) 1 = S754_finite false 4503599627370496 (-52).
Proof. reflexivity. Qed.

(** [0 * 0 * c] is [+0] for every finite [c > 0], whatever the signs of
    the zeros. *)
Lemma zero_determinant (D c : spec_float) :
  is_zero D = true -> is_positive_finite c = true ->
  SFmul prec emax (SFmul prec emax D D) c = S754_zero false.
Proof.
  destruct D as [s | | |]; try discriminate. intros _.
  destruct c as [| | | [|] mc ec]; try discriminate. intros _.
  cbn. now destruct s.
Qed.

(** With a finite [c < 0] the product is [-0]. *)
Lemma zero_determinant_negative (D : spec_float) (mc : positive) (ec : Z) :
  is_zero D = true ->
  SFmul prec emax (SFmul prec emax D D) (S754_finite true mc ec) = S754_zero true.
Proof.
  destruct D as [s | | |]; try discriminate. intros _.
  cbn. now destruct s.
Qed.

Lemma inv_jacobian_row_zero_distance (ra dec D : spec_float) :
  is_zero D = true -> is_positive_finite (c_cos m dec) = true ->
  @inv_jacobian_row _ (binary64 m) [ra; dec; D] = pos_infinity.
Proof.
  intros HD Hc. unfold inv_jacobian_row, jacobian_row, entry.
  cbn [nth np_div np_mul np_cos binary64].
  rewrite (zero_determinant D (c_cos m dec) HD Hc).
  reflexivity.
Qed.

(** Outside the declinations, where the cosine is negative, the
    reciprocal of the zero determinant is the negative infinity. *)
Lemma inv_jacobian_row_negative_cosine (ra dec D : spec_float) (mc : positive) (ec : Z) :
  is_zero D = true -> c_cos m dec = S754_finite true mc ec ->
  @inv_jacobian_row _ (binary64 m) [ra; dec; D] = S754_infinity true.
Proof.
  intros HD Hc. unfold inv_jacobian_row, jacobian_row, entry.
  cbn [nth np_div np_mul np_cos binary64].
  rewrite Hc, (zero_determinant_negative D mc ec HD).
  reflexivity.
Qed.

(** The value of [1 / (D * D * c)] for a zero [D]. *)
Lemma reciprocal_of_zero_determinant (D c : spec_float) :
  is_zero D = true ->
  SFdiv prec emax (@of_int _ (binary64 m) 1)
    (SFmul prec emax (SFmul prec emax D D) c)
  = match c with
    | S754_zero s | S754_finite s _ _ => S754_infinity s
    | _ => S754_nan
    end.
Proof.
  destruct D as [s | | |]; try discriminate. intros _.
  destruct c as [sc | sc | | sc mc ec]; destruct s; try destruct sc;
    reflexivity.
Qed.

End Binary64.

(** The binary64 code runs: at declination 0, where the cosine is 1, the
    row [[0, 0, 2]] has determinant 4 and inverse determinant 0.25. *)
Example Jacobian_in_celestial_binary64 :
  @Jacobian_in_celestial _ (binary64 libm_at_zero)
    (Mat 3 [[S754_zero false; S754_zero false;
             S754_finite false 4503599627370496 (-51)]])
  = Ok (Vec [S754_finite false 4503599627370496 (-50)]).
Proof. vm_compute. reflexivity. Qed.

Example inv_Jacobian_binary64 :
  @inv_Jacobian _ (binary64 libm_at_zero)
    (Vec [S754_zero false; S754_zero false;
          S754_finite false 4503599627370496 (-51)])
  = Ok (Vec [S754_finite false 4503599627370496 (-54)]).
Proof. vm_compute. reflexivity. Qed.

(** C4, as amended.  For every interpretation of the scalars and every
    input that promotes to a batch of rows of width 3, [inv_Jacobian]
    raises nothing and returns one value per row, the value for the row
    [[ra, dec, D]] being [1 / (D * D * cos(dec))]; in binary64, for a row
    whose D is a zero of either sign, that value is the infinity that has
    the sign of [cos(dec)] when the cosine is finite (zero included) and
    NaN when the cosine is infinite or NaN: the positive infinity for a
    positive finite cosine, the negative infinity for a negative one. *)
Theorem inv_Jacobian_reciprocal :
  (forall (F : Type) (num : Num F) (a : ndarray F) (rows : list (list F)),
     np_atleast_2d a = Mat 3 rows -> well_shaped 3 rows ->
     exists out,
       inv_Jacobian a = Ok (Vec out) /\
       length out = length rows /\
       forall i ra dec D, nth_error rows i = Some [ra; dec; D] ->
         nth_error out i = Some (of_int 1 /! (D *! D *! np_cos dec))%num) /\
  (forall (m : libm) (a : ndarray spec_float) (rows : list (list spec_float))
          (i : nat) (ra dec D : spec_float),
     @np_atleast_2d spec_float a = Mat 3 rows -> well_shaped 3 rows ->
     nth_error rows i = Some [ra; dec; D] ->
     is_zero D = true ->
     exists out,
       @inv_Jacobian _ (binary64 m) a = Ok (Vec out) /\
       nth_error out i
       = Some match c_cos m dec with
              | S754_zero s | S754_finite s _ _ => S754_infinity s
              | _ => S754_nan
              end /\
       (is_positive_finite (c_cos m dec) = true ->
        nth_error out i = Some pos_infinity) /\
       (is_negative_finite (c_cos m dec) = true ->
        nth_error out i = Some neg_infinity)).
Proof.
  split.
  - intros F num a rows Ha _. exists (map inv_jacobian_row rows).
    unfold inv_Jacobian. rewrite Ha.
    fold (inv_Jacobian (Mat 3 rows)). split; [| split].
    + apply inv_Jacobian_batch.
    + apply length_map.
    + intros i ra dec D Hi.
      apply (nth_error_map_some inv_jacobian_row rows i Hi).
  - intros m a rows i ra dec D Ha _ Hi HD.
    assert (Hval : nth_error (map (@inv_jacobian_row _ (binary64 m)) rows) i
                   = Some match c_cos m dec with
                          | S754_zero s | S754_finite s _ _ => S754_infinity s
                          | _ => S754_nan
                          end).
    { rewrite (nth_error_map_some _ rows i Hi). f_equal.
      apply (reciprocal_of_zero_determinant m D (c_cos m dec) HD). }
    exists (map (@inv_jacobian_row _ (binary64 m)) rows).
    split; [| split; [exact Hval | split]].
    + unfold inv_Jacobian. rewrite Ha.
      apply (@inv_Jacobian_batch _ (binary64 m) rows).
    + intros Hc. rewrite Hval.
      destruct (c_cos m dec) as [| | | [|] mc ec]; try discriminate Hc.
      reflexivity.
    + intros Hc. rewrite Hval.
      destruct (c_cos m dec) as [| | | [|] mc ec]; try discriminate Hc.
      reflexivity.
Qed.

(** C4 as stated fails: in binary64, at [ra = 0], [dec] the double
    nearest pi, whose cosine is -1, and [D = -0.0], [inv_Jacobian]
    returns the negative infinity, not the positive one. *)
Lemma inv_Jacobian_negative_infinity :
  @inv_Jacobian _ (binary64 libm_at_pi)
    (Vec [S754_zero false; pi_binary64; S754_zero true])
  = Ok (Vec [neg_infinity]) /\
  is_zero (S754_zero true) = true /\
  neg_infinity <> pos_infinity.
Proof.
  split; [vm_compute; reflexivity |]. split; [reflexivity | discriminate].
Qed.

(** ** The theorems at concrete inputs *)

Section Instances.

Local Open Scope R_scope.

Lemma x_axis_batch_nonempty : [[1; 0; 0]] <> ([] : list (list R)).
Proof. discriminate. Defined.

Lemma x_axis_batch_shaped : well_shaped 3 [[1; 0; 0]].
Proof. repeat constructor. Defined.

Lemma x_axis_batch_nonzero : Forall (fun row : list R => norm row <> 0) [[1; 0; 0]].
Proof. repeat constructor. rewrite norm_x_axis. lra. Defined.

Lemma x_axis_batch_positive : Forall (fun row : list R => 0 < norm row) [[1; 0; 0]].
Proof. repeat constructor. rewrite norm_x_axis. lra. Defined.



Lemma Jacobian_in_celestial_value_witness :
  well_shaped 3 [[0; 0; 2]] /\
  exists out,
    Jacobian_in_celestial (Mat 3 [[0; 0; 2]]) = Ok (Vec out) /\
    length out = 1%nat /\
    forall i ra dec D, nth_error [[0; 0; 2]] i = Some [ra; dec; D] ->
      nth_error out i = Some (D * D * cos dec).
Proof.
  assert (Hws : well_shaped 3 [[0; 0; 2]]) by repeat constructor.
  split; [exact Hws |].
  exact (proj1 Jacobian_in_celestial_value R real_num [[0; 0; 2]] Hws).
Defined.

Lemma spherical_angles_in_range_witness :
  well_shaped 3 [[1; 0; 0]] /\
  Forall (fun row : list R => 0 < norm row) [[1; 0; 0]] /\
  (forall out, cartesian_to_spherical (Mat 3 [[1; 0; 0]]) = Ok out ->
     exists orows,
       out = Mat 3 orows /\
       length orows = 1%nat /\
       Forall (fun o => 0 <= entry 2 o < 2 * PI /\
                        - (PI / 2) <= entry 1 o <= PI / 2) orows) /\
  ([[1; 0; 0]] <> [] ->
   exists out, cartesian_to_spherical (Mat 3 [[1; 0; 0]]) = Ok out).
Proof.
  split; [exact x_axis_batch_shaped |].
  split; [exact x_axis_batch_positive |].
  exact (spherical_angles_in_range [[1; 0; 0]] x_axis_batch_shaped
           x_axis_batch_positive).
Defined.

Lemma cartesian_to_spherical_per_row_witness :
  [[1; 0; 0]] <> [] /\
  well_shaped 3 [[1; 0; 0]] /\
  exists out,
    cartesian_to_spherical (Mat 3 [[1; 0; 0]]) = Ok (Mat 3 out) /\
    length out = 1%nat /\
    forall i x y z, nth_error [[1; 0; 0]] i = Some [x; y; z] ->
      let r := norm [x; y; z] in
      let unit := [x / r; y / r; z / r] in
      let theta := asin (entry 2 unit) in
      let phi := Ratan2 (entry 0 unit) (entry 1 unit) in
      nth_error out i
      = Some [r; theta; if Rltb phi 0 then phi + 2 * PI else phi].
Proof.
  split; [exact x_axis_batch_nonempty |].
  split; [exact x_axis_batch_shaped |].
  exact (proj1 cartesian_to_spherical_per_row [[1; 0; 0]] x_axis_batch_nonempty
           x_axis_batch_shaped).
Defined.

Lemma Jacobian_is_composition_witness :
  np_atleast_2d (Vec [1; 0; 0]) = Mat 3 [[1; 0; 0]] /\
  [[1; 0; 0]] <> [] /\
  well_shaped 3 [[1; 0; 0]] /\
  exists out,
    Jacobian (Vec [1; 0; 0]) = Ok (Vec out) /\
    length out = 1%nat /\
    forall i row, nth_error [[1; 0; 0]] i = Some row ->
      nth_error out i = Some (jacobian_row (celestial_row row)).
Proof.
  split; [reflexivity |].
  split; [exact x_axis_batch_nonempty |].
  split; [exact x_axis_batch_shaped |].
  exact (proj1 (proj2 Jacobian_is_composition) (Vec [1; 0; 0]) [[1; 0; 0]]
           eq_refl x_axis_batch_nonempty x_axis_batch_shaped).
Defined.

Lemma batch_invariance_witness :
  well_shaped 3 [[1; 0; 0]; [0; 0; 1]] /\
  [[1; 0; 0]; [0; 0; 1]] <> [] /\
  row_by_row Cartesian_to_spherical 3 [[1; 0; 0]; [0; 0; 1]]
  = cartesian_to_spherical (Mat 3 [[1; 0; 0]; [0; 0; 1]]).
Proof.
  assert (Hne : [[1; 0; 0]; [0; 0; 1]] <> ([] : list (list R))) by discriminate.
  assert (Hws : well_shaped 3 [[1; 0; 0]; [0; 0; 1]]) by repeat constructor.
  split; [exact Hws |]. split; [exact Hne |].
  exact (proj2 (proj2 (batch_invariance Cartesian_to_spherical
                         [[1; 0; 0]; [0; 0; 1]] Hws) Hne)).
Defined.

Lemma promotion_of_single_vector_witness :
  length [1; 0; 0] = 3%nat /\
  cartesian_to_celestial (Vec [1; 0; 0]) = cartesian_to_celestial (Mat 3 [[1; 0; 0]]) /\
  cartesian_to_spherical (Vec [1; 0; 0]) = Raise IndexError.
Proof.
  split; [reflexivity |].
  pose proof (promotion_of_single_vector [1; 0; 0] eq_refl) as H.
  split; [exact (proj1 (proj1 (proj2 H))) |].
  exact (proj1 (proj2 (proj2 (proj2 (proj2 H))))).
Defined.

End Instances.

(** In binary64, with the cosine of 0 equal to 1: a zero distance at
    declination 0 gives the positive infinity. *)
Lemma inv_Jacobian_reciprocal_witness :
  let zero := S754_zero false in
  @np_atleast_2d spec_float (Vec [zero; zero; zero]) = Mat 3 [[zero; zero; zero]] /\
  well_shaped 3 [[zero; zero; zero]] /\
  nth_error [[zero; zero; zero]] 0 = Some [zero; zero; zero] /\
  is_zero zero = true /\
  is_positive_finite (c_cos libm_at_zero zero) = true /\
  exists out,
    @inv_Jacobian _ (binary64 libm_at_zero) (Vec [zero; zero; zero]) = Ok (Vec out) /\
    nth_error out 0 = Some pos_infinity.
Proof.
  intros zero.
  assert (Hws : well_shaped 3 [[zero; zero; zero]]) by repeat constructor.
  split; [reflexivity |]. split; [exact Hws |].
  split; [reflexivity |]. split; [reflexivity |]. split; [reflexivity |].
  destruct (proj2 inv_Jacobian_reciprocal libm_at_zero (Vec [zero; zero; zero])
              [[zero; zero; zero]] 0%nat zero zero zero eq_refl Hws eq_refl
              eq_refl) as (out & Hout & _ & Hpos & _).
  exists out. split; [exact Hout | exact (Hpos eq_refl)].
Defined.

(** * Further properties of the code *)

(** ** Shapes the functions accept and refuse *)

Section Shapes.

Context {F : Type} {num : Num F}.
Local Open Scope num_scope.

Lemma column_narrow (k m : nat) (rows : list (list F)) :
  (m <= k)%nat -> column k (Mat m rows) = Raise IndexError.
Proof.
  intros Hk. unfold column.
  destruct (Nat.ltb_spec k m) as [Hlt | _]; [lia | reflexivity].
Qed.

Lemma unit_vectors_any (m : nat) (rows : list (list F)) :
  well_shaped m rows ->
  np_array (map (fun v => ndmap (fun x => x /! np_linalg_norm v) v) (map Vec rows))
  = Ok (match rows with [] => Vec [] | _ :: _ => Mat m (map unit_row rows) end).
Proof.
  intros Hws. destruct rows as [| r0 rest] eqn:E; [reflexivity |].
  rewrite <- E in *. apply unit_vectors; [rewrite E; discriminate | exact Hws].
Qed.

Lemma cartesian_to_spherical_narrow (m : nat) (rows : list (list F)) :
  (m < 3)%nat -> well_shaped m rows ->
  cartesian_to_spherical (Mat m rows) = Raise IndexError.
Proof.
  intros Hm Hws. unfold cartesian_to_spherical.
  cbn [np_linalg_norm_last_axis iterate bind].
  rewrite (unit_vectors_any m rows Hws). cbn [bind].
  destruct rows; [reflexivity |].
  now rewrite column_narrow by lia.
Qed.

Lemma spherical_to_cartesian_narrow (m : nat) (rows : list (list F)) :
  (m < 3)%nat -> spherical_to_cartesian (Mat m rows) = Raise IndexError.
Proof.
  intros Hm. unfold spherical_to_cartesian.
  destruct (Nat.ltb_spec 1 m) as [H1 | H1].
  - rewrite (column_rows 1 m) by exact H1. cbn [bind].
    now rewrite column_narrow by lia.
  - now rewrite column_narrow by lia.
Qed.

Lemma Jacobian_in_celestial_narrow (m : nat) (rows : list (list F)) :
  (m < 3)%nat -> Jacobian_in_celestial (Mat m rows) = Raise IndexError.
Proof.
  intros Hm. unfold Jacobian_in_celestial. now rewrite column_narrow by lia.
Qed.

Lemma call_narrow (f : conversion) (m : nat) (rows : list (list F)) :
  (m < 3)%nat -> well_shaped m rows ->
  call f (Mat m rows) = Raise IndexError.
Proof.
  intros Hm Hws. destruct f; cbn [call].
  - now apply cartesian_to_spherical_narrow.
  - now apply spherical_to_cartesian_narrow.
  - unfold celestial_to_cartesian. cbn [np_atleast_2d].
    now apply spherical_to_cartesian_narrow.
  - unfold cartesian_to_celestial. cbn [np_atleast_2d].
    now rewrite cartesian_to_spherical_narrow.
  - unfold Jacobian, cartesian_to_celestial. cbn [np_atleast_2d].
    now rewrite cartesian_to_spherical_narrow.
  - unfold inv_Jacobian. cbn [np_atleast_2d].
    now rewrite Jacobian_in_celestial_narrow.
  - now apply Jacobian_in_celestial_narrow.
Qed.

(** X1.  Every function of the module raises [IndexError] on a rank-2
    array of fewer than three columns, and each of the four functions
    that promote their argument raises [IndexError] on a rank-1 vector of
    fewer than three entries and on a rank-0 scalar. *)
Theorem narrow_input_is_refused (f : conversion) :
  (forall (m : nat) (rows : list (list F)),
     (m < 3)%nat -> well_shaped m rows ->
     call f (Mat m rows) = Raise IndexError) /\
  (promotes f = true ->
   (forall v : list F, (length v < 3)%nat -> call f (Vec v) = Raise IndexError) /\
   (forall x : F, call f (Scalar x) = Raise IndexError)).
Proof.
  split; [intros m rows; apply call_narrow |].
  intros Hp. split.
  - intros v Hv.
    assert (Hw : call f (Vec v) = call f (Mat (length v) [v])).
    { destruct f; try discriminate Hp; reflexivity. }
    rewrite Hw. apply call_narrow; [exact Hv |].
    now apply well_shaped_single.
  - intros x.
    assert (Hw : call f (Scalar x) = call f (Mat 1 [[x]])).
    { destruct f; try discriminate Hp; reflexivity. }
    rewrite Hw. apply call_narrow; [lia |].
    now apply well_shaped_single.
Qed.

(** X2.  The three functions that do not promote their argument raise
    [IndexError] on every rank-1 array, whatever its length. *)
Theorem rank_1_is_refused (v : list F) :
  cartesian_to_spherical (Vec v) = Raise IndexError /\
  spherical_to_cartesian (Vec v) = Raise IndexError /\
  Jacobian_in_celestial (Vec v) = Raise IndexError.
Proof.
  split; [| split; reflexivity].
  unfold cartesian_to_spherical.
  cbn [np_linalg_norm_last_axis iterate bind]. rewrite map_map.
  destruct v as [| x v]; [reflexivity |].
  cbn [map ndmap np_array].
  assert (Hs : forall (g : F -> F) (l : list F),
             mapM as_scalar (map (fun a => Scalar (g a)) l) = Ok (map g l)).
  { intros g l. apply mapM_ok. apply Forall_forall. now intros. }
  change (Scalar (x /! np_linalg_norm (Scalar x))
          :: map (fun a => Scalar (a /! np_linalg_norm (Scalar a))) v)
    with (map (fun a => Scalar (a /! np_linalg_norm (Scalar a))) (x :: v)).
  rewrite (Hs (fun a => a /! np_linalg_norm (Scalar a))). reflexivity.
Qed.

End Shapes.

(** ** Arrays wider than three columns *)

Section Wide.

Context {F : Type} {num : Num F}.
Local Open Scope num_scope.

Lemma spherical_to_cartesian_wide (m : nat) (rows : list (list F)) :
  (3 <= m)%nat ->
  spherical_to_cartesian (Mat m rows) = Ok (Mat 3 (map cartesian_row rows)).
Proof.
  intros Hm. unfold spherical_to_cartesian.
  rewrite !column_rows by lia. cbn [bind].
  rewrite !map_map, !zip_with_map.
  apply stack_columns.
Qed.

Lemma Jacobian_in_celestial_wide (m : nat) (rows : list (list F)) :
  (3 <= m)%nat ->
  Jacobian_in_celestial (Mat m rows) = Ok (Vec (map jacobian_row rows)).
Proof.
  intros Hm. unfold Jacobian_in_celestial.
  rewrite !column_rows by lia. cbn [bind].
  now rewrite map_map, !zip_with_map.
Qed.

Lemma inv_Jacobian_wide (m : nat) (rows : list (list F)) :
  (3 <= m)%nat ->
  inv_Jacobian (Mat m rows) = Ok (Vec (map inv_jacobian_row rows)).
Proof.
  intros Hm. unfold inv_Jacobian. cbn [np_atleast_2d].
  rewrite Jacobian_in_celestial_wide by exact Hm. cbn [bind ndmap].
  now rewrite map_map.
Qed.

Lemma cartesian_to_spherical_wide (m : nat) (rows : list (list F)) :
  (3 <= m)%nat -> rows <> [] -> well_shaped m rows ->
  cartesian_to_spherical (Mat m rows) = Ok (Mat 3 (map spherical_row rows)).
Proof.
  intros Hm Hne Hws. unfold cartesian_to_spherical.
  cbn [np_linalg_norm_last_axis iterate bind].
  rewrite (unit_vectors m rows Hne Hws). cbn [bind].
  rewrite !column_map by lia. cbn [bind].
  unfold wrap_negative. rewrite zip_with_map, !map_map.
  apply stack_columns.
Qed.

Lemma entry_firstn (k : nat) (row : list F) :
  (k < 3)%nat -> entry k (firstn 3 row) = entry k row.
Proof.
  intros Hk. unfold entry. rewrite nth_firstn.
  destruct (Nat.ltb_spec k 3); [reflexivity | lia].
Qed.

Lemma cartesian_row_firstn (row : list F) :
  cartesian_row (firstn 3 row) = cartesian_row row.
Proof. unfold cartesian_row. now rewrite !entry_firstn by lia. Qed.

Lemma jacobian_row_firstn (row : list F) :
  jacobian_row (firstn 3 row) = jacobian_row row.
Proof. unfold jacobian_row. now rewrite !entry_firstn by lia. Qed.

Lemma jacobian_row_columns (row row' : list F) :
  entry 1 row = entry 1 row' -> entry 2 row = entry 2 row' ->
  jacobian_row row = jacobian_row row'.
Proof. intros H1 H2. unfold jacobian_row. now rewrite H1, H2. Qed.

Lemma map_ext_columns {B : Type} (g : list F -> B) (rows rows' : list (list F)) :
  (forall row row', entry 1 row = entry 1 row' -> entry 2 row = entry 2 row' ->
                    g row = g row') ->
  map (entry 1) rows = map (entry 1) rows' ->
  map (entry 2) rows = map (entry 2) rows' ->
  map g rows = map g rows'.
Proof.
  intros Hg. revert rows'.
  induction rows as [| r rows IH]; intros [| r' rows'] H1 H2;
    try discriminate; [reflexivity |].
  cbn [map] in *. injection H1 as E1 H1. injection H2 as E2 H2.
  now rewrite (Hg r r' E1 E2), (IH rows' H1 H2).
Qed.

(** X3.  On a rank-2 array of three or more columns, the functions that
    only read columns ([spherical_to_cartesian],
    [celestial_to_cartesian], [Jacobian_in_celestial], [inv_Jacobian])
    return what they return on the first three columns alone: every
    further column is ignored.  The two determinant functions moreover
    never read column 0 (the right ascension): two arrays that agree on
    columns 1 and 2 get the same result. *)
Theorem further_columns_are_ignored (m : nat) (rows : list (list F)) :
  (3 <= m)%nat -> well_shaped m rows ->
  (forall f, reads_columns_only f = true ->
     call f (Mat m rows) = call f (Mat 3 (map (firstn 3) rows))) /\
  (forall rows' : list (list F),
     map (entry 1) rows = map (entry 1) rows' ->
     map (entry 2) rows = map (entry 2) rows' ->
     Jacobian_in_celestial (Mat m rows) = Jacobian_in_celestial (Mat m rows') /\
     inv_Jacobian (Mat m rows) = inv_Jacobian (Mat m rows')).
Proof.
  intros Hm _. split.
  - intros f Hf. destruct f; try discriminate Hf; cbn [call].
    + rewrite spherical_to_cartesian_wide, spherical_to_cartesian_batch by lia.
      rewrite map_map. do 2 f_equal. apply map_ext. intros row.
      now rewrite cartesian_row_firstn.
    + unfold celestial_to_cartesian. cbn [np_atleast_2d].
      rewrite spherical_to_cartesian_wide, spherical_to_cartesian_batch by lia.
      rewrite map_map. do 2 f_equal. apply map_ext. intros row.
      now rewrite cartesian_row_firstn.
    + rewrite inv_Jacobian_wide, inv_Jacobian_batch by lia.
      rewrite map_map. do 2 f_equal. apply map_ext. intros row.
      unfold inv_jacobian_row. now rewrite jacobian_row_firstn.
    + rewrite Jacobian_in_celestial_wide, Jacobian_in_celestial_batch by lia.
      rewrite map_map. do 2 f_equal. apply map_ext. intros row.
      now rewrite jacobian_row_firstn.
  - intros rows' H1 H2. split.
    + rewrite !Jacobian_in_celestial_wide by lia. do 2 f_equal.
      apply map_ext_columns; [apply jacobian_row_columns | exact H1 | exact H2].
    + rewrite !inv_Jacobian_wide by lia. do 2 f_equal.
      apply map_ext_columns; [| exact H1 | exact H2].
      intros row row' E1 E2. unfold inv_jacobian_row.
      now rewrite (jacobian_row_columns row row' E1 E2).
Qed.

End Wide.

(** ** Further properties over the reals *)

Section RealFurther.

Local Open Scope R_scope.

Lemma norm_real_4 (x y z w : R) :
  norm [x; y; z; w] = sqrt (x * x + y * y + z * z + w * w).
Proof. unfold norm. cbn. now rewrite Rplus_0_l. Qed.

(** The norm of what [spherical_to_cartesian] returns for a row is the
    absolute value of the row's column 2. *)
Lemma norm_cartesian_row (a b r : R) : norm (cartesian_row [a; b; r]) = Rabs r.
Proof.
  unfold cartesian_row, entry. cbn [nth np_mul np_sin np_cos real_num].
  rewrite norm_real. rewrite <- sqrt_Rsqr_abs. f_equal.
  pose proof (sin2_cos2 a) as Ha. pose proof (sin2_cos2 b) as Hb.
  unfold Rsqr in *.
  replace (r * sin a * cos b * (r * sin a * cos b)
           + r * cos a * cos b * (r * cos a * cos b)
           + r * sin b * (r * sin b))
    with (r * r * (cos b * cos b * (sin a * sin a + cos a * cos a)
                   + sin b * sin b)) by ring.
  rewrite Ha. replace (cos b * cos b * 1 + sin b * sin b)
    with (sin b * sin b + cos b * cos b) by ring.
  rewrite Hb. ring.
Qed.







Lemma map_ext_on {A B : Type} (g h : A -> B) (P : A -> Prop) (l : list A) :
  (forall a, P a -> g a = h a) -> Forall P l -> map g l = map h l.
Proof.
  intros Hg. induction 1 as [| a l Ha _ IH]; cbn [map]; [reflexivity |].
  now rewrite (Hg a Ha), IH.
Qed.

Lemma Forall_and_shape {A : Type} (P : list A -> Prop) (rows : list (list A)) :
  well_shaped 3 rows -> Forall P rows ->
  Forall (fun row => length row = 3%nat /\ P row) rows.
Proof.
  intros Hws HP. apply Forall_forall. intros row Hin. split.
  - unfold well_shaped in Hws. rewrite Forall_forall in Hws. now apply Hws.
  - rewrite Forall_forall in HP. now apply HP.
Qed.


(** The determinant in Cartesian terms. *)
Lemma jacobian_of_cartesian_row (x y z : R) :
  norm [x; y; z] <> 0 ->
  jacobian_row (celestial_row [x; y; z]) = norm [x; y; z] * sqrt (x * x + y * y).
Proof.
  intros Hn. pose proof (norm_pos x y z Hn) as Hpos.
  unfold jacobian_row, celestial_row, entry.
  cbn [nth np_mul np_cos real_num].
  rewrite (cos_latitude x y z Hn), Rmult_assoc. f_equal.
  rewrite <- (sqrt_Rsqr (norm [x; y; z])) at 1 by lra.
  rewrite <- sqrt_mult_alt by apply Rle_0_sqr.
  f_equal. unfold Rsqr. field. exact Hn.
Qed.

Lemma sum_squares_zero (x y : R) : x * x + y * y = 0 <-> x = 0 /\ y = 0.
Proof. split; [intros H; split; nra | intros [-> ->]; ring]. Qed.

Lemma jacobian_of_cartesian_row_sign (x y z : R) :
  norm [x; y; z] <> 0 ->
  0 <= jacobian_row (celestial_row [x; y; z]) /\
  (jacobian_row (celestial_row [x; y; z]) = 0 <-> x = 0 /\ y = 0).
Proof.
  intros Hn. pose proof (norm_pos x y z Hn) as Hpos.
  rewrite (jacobian_of_cartesian_row x y z Hn).
  pose proof (sqrt_pos (x * x + y * y)) as Hs.
  split; [nra |]. rewrite <- sum_squares_zero. split.
  - intros H. apply sqrt_eq_0; [nra |].
    destruct (Rmult_integral _ _ H); [lra | assumption].
  - intros ->. rewrite sqrt_0. ring.
Qed.



(** The determinant at a declination: its sign and its zeros. *)
Lemma jacobian_row_sign (ra dec D : R) :
  - (PI / 2) <= dec <= PI / 2 ->
  0 <= jacobian_row [ra; dec; D] /\
  (jacobian_row [ra; dec; D] = 0 <->
   D = 0 \/ dec = PI / 2 \/ dec = - (PI / 2)).
Proof.
  intros Hdec. unfold jacobian_row, entry. cbn [nth np_mul np_cos real_num].
  assert (Hc : 0 <= cos dec) by (apply cos_ge_0; lra).
  split; [nra |]. split.
  - intros H. destruct (Rmult_integral _ _ H) as [HD | Hcos].
    + left. nra.
    + right.
      destruct (Req_dec dec (PI / 2)) as [? | Hne1]; [now left |].
      destruct (Req_dec dec (- (PI / 2))) as [? | Hne2]; [now right |].
      assert (0 < cos dec) by (apply cos_gt_0; lra). lra.
  - intros [-> | [-> | ->]].
    + ring.
    + rewrite cos_PI2. ring.
    + rewrite cos_neg, cos_PI2. ring.
Qed.

End RealFurther.

Section RealFurtherTheorems.

Local Open Scope R_scope.

Lemma Forall2_map_on {A B C : Type} (P : A -> Prop) (Q : B -> C -> Prop)
  (g : A -> B) (h : A -> C) (l : list A) :
  (forall a, P a -> Q (g a) (h a)) -> Forall P l ->
  Forall2 Q (map g l) (map h l).
Proof.
  intros HQ. induction 1 as [| a l Ha _ IH]; cbn [map]; constructor; auto.
Qed.

Lemma off_axis_norm (x y z : R) : x <> 0 \/ y <> 0 -> norm [x; y; z] <> 0.
Proof.
  intros Hxy. rewrite norm_real. intros H.
  apply sqrt_eq_0 in H; [| nra].
  assert (x * x + y * y = 0) by nra.
  apply sum_squares_zero in H0. destruct H0, Hxy; contradiction.
Qed.

(** X4.  On a batch of [N >= 1] rows of any width [m >= 3],
    [cartesian_to_spherical] still returns three columns, and r is the
    norm of the whole row, all [m] entries included, theta and phi being
    computed from the row divided by that norm; over the reals, at width
    4, r is the square root of the sum of the four squares. *)
Theorem cartesian_to_spherical_on_wide_batch :
  (forall (F : Type) (num : Num F) (m : nat) (rows : list (list F)),
     (3 <= m)%nat -> rows <> [] -> well_shaped m rows ->
     exists out,
       cartesian_to_spherical (Mat m rows) = Ok (Mat 3 out) /\
       length out = length rows /\
       forall i row, nth_error rows i = Some row ->
         nth_error out i
         = Some [norm row; np_arcsin (entry 2 (unit_row row)); azimuth row]) /\
  (forall x y z w : R,
     exists theta phi,
       cartesian_to_spherical (Mat 4 [[x; y; z; w]])
       = Ok (Mat 3 [[sqrt (x * x + y * y + z * z + w * w); theta; phi]])).
Proof.
  split.
  - intros F num m rows Hm Hne Hws. exists (map spherical_row rows).
    split; [| split].
    + now apply cartesian_to_spherical_wide.
    + apply length_map.
    + intros i row Hi. apply (nth_error_map_some spherical_row rows i Hi).
  - intros x y z w.
    exists (latitude [x; y; z; w]), (azimuth [x; y; z; w]).
    rewrite (cartesian_to_spherical_wide 4 [[x; y; z; w]]);
      [| lia | discriminate | now apply well_shaped_single].
    cbn [map]. unfold spherical_row. now rewrite norm_real_4.
Qed.

(** X5.  Over the reals, every row that [spherical_to_cartesian] returns
    has for Euclidean norm the absolute value of the input row's column
    2: [np.linalg.norm(spherical_to_cartesian(a), axis=-1)] is
    [abs(a[:,2])]. *)
Theorem spherical_to_cartesian_preserves_distance (rows : list (list R)) :
  well_shaped 3 rows ->
  exists out,
    spherical_to_cartesian (Mat 3 rows) = Ok (Mat 3 out) /\
    np_linalg_norm_last_axis (Mat 3 out)
    = Ok (Vec (map (fun row => Rabs (entry 2 row)) rows)).
Proof.
  intros Hws. exists (map cartesian_row rows). split.
  - apply spherical_to_cartesian_batch.
  - cbn [np_linalg_norm_last_axis]. rewrite map_map. do 2 f_equal.
    apply (map_ext_on _ _ (fun row => length row = 3%nat)); [| exact Hws].
    intros row Hrow. destruct (row_of_width_3 row Hrow) as (a & b & r & ->).
    apply norm_cartesian_row.
Qed.



(** X9.  Over the reals, for every batch of [N >= 1] Cartesian rows off
    the z axis, the values of [inv_Jacobian] at the celestial
    coordinates that [cartesian_to_celestial] returns are the
    reciprocals of the values of [Jacobian]: their products are 1. *)
Theorem inv_Jacobian_inverts_Jacobian (rows : list (list R)) :
  rows <> [] -> well_shaped 3 rows ->
  Forall (fun row => entry 0 row <> 0 \/ entry 1 row <> 0) rows ->
  exists js ks,
    Jacobian (Mat 3 rows) = Ok (Vec js) /\
    (c <- cartesian_to_celestial (Mat 3 rows) ;; inv_Jacobian c) = Ok (Vec ks) /\
    Forall2 (fun j k => j * k = 1) js ks.
Proof.
  intros Hne Hws Hoff.
  exists (map (fun row => jacobian_row (celestial_row row)) rows),
         (map (fun row => inv_jacobian_row (celestial_row row)) rows).
  split; [| split].
  - now apply Jacobian_batch.
  - rewrite (cartesian_to_celestial_batch rows Hne Hws). cbn [bind].
    now rewrite inv_Jacobian_batch, map_map.
  - eapply Forall2_map_on; [| exact (Forall_and_shape _ rows Hws Hoff)].
    intros row [Hrow Hxy]. cbv beta.
    destruct (row_of_width_3 row Hrow) as (x & y & z & ->).
    change (entry 0 [x; y; z]) with x in Hxy.
    change (entry 1 [x; y; z]) with y in Hxy.
    pose proof (off_axis_norm x y z Hxy) as Hn.
    destruct (jacobian_of_cartesian_row_sign x y z Hn) as [_ Hz].
    assert (Hj : jacobian_row (celestial_row [x; y; z]) <> 0).
    { intros H. apply Hz in H. destruct H, Hxy; contradiction. }
    unfold inv_jacobian_row. cbn [np_div of_int real_num]. now field.
Qed.


(** X11.  Over the reals, for every batch of [N >= 1] rows of width 3 and
    non-zero norm, [cartesian_to_celestial] returns rows [[ra, dec, D]]
    with [0 <= ra < 2 pi], [-pi/2 <= dec <= pi/2] and [D > 0]. *)
Theorem celestial_coordinates_in_range (rows : list (list R)) :
  rows <> [] -> well_shaped 3 rows ->
  Forall (fun row => norm row <> 0) rows ->
  exists out,
    cartesian_to_celestial (Mat 3 rows) = Ok (Mat 3 out) /\
    length out = length rows /\
    Forall (fun o => 0 <= entry 0 o < 2 * PI /\
                     - (PI / 2) <= entry 1 o <= PI / 2 /\
                     0 < entry 2 o) out.
Proof.
  intros Hne Hws Hnz. exists (map celestial_row rows). split; [| split].
  - now apply cartesian_to_celestial_batch.
  - apply length_map.
  - apply Forall_map.
    eapply Forall_impl; [| exact (Forall_and_shape _ rows Hws Hnz)].
    intros row [Hrow Hn]. cbv beta in Hn.
    destruct (row_of_width_3 row Hrow) as (x & y & z & ->).
    split; [exact (azimuth_bound x y z) |].
    split; [exact (latitude_bound x y z) | exact (norm_pos x y z Hn)].
Qed.

(** X12.  Over the reals, for every batch of rows [[ra, dec, D]] with
    [-pi/2 <= dec <= pi/2], the value [Jacobian_in_celestial] returns
    for a row is never negative, and it is zero exactly when [D = 0] or
    the row is at a pole, [dec = pi/2] or [dec = -pi/2]: these are the
    rows for which [inv_Jacobian] divides by zero. *)
Theorem Jacobian_in_celestial_zeros (rows : list (list R)) :
  well_shaped 3 rows ->
  Forall (fun row => - (PI / 2) <= entry 1 row <= PI / 2) rows ->
  exists out,
    Jacobian_in_celestial (Mat 3 rows) = Ok (Vec out) /\
    forall i ra dec D, nth_error rows i = Some [ra; dec; D] ->
      exists j,
        nth_error out i = Some j /\
        0 <= j /\
        (j = 0 <-> D = 0 \/ dec = PI / 2 \/ dec = - (PI / 2)).
Proof.
  intros Hws Hdec. exists (map jacobian_row rows). split.
  - apply Jacobian_in_celestial_batch.
  - intros i ra dec D Hi. exists (jacobian_row [ra; dec; D]). split.
    + apply (nth_error_map_some jacobian_row rows i Hi).
    + apply jacobian_row_sign.
      rewrite Forall_forall in Hdec.
      exact (Hdec _ (nth_error_In _ _ Hi)).
Qed.

End RealFurtherTheorems.

(** ** Further properties in binary64 *)

Section Binary64Further.

Variable m : libm.

Lemma norm_of_zero_row (x y z : spec_float) :
  is_zero x = true -> is_zero y = true -> is_zero z = true ->
  @norm _ (binary64 m) [x; y; z] = S754_zero false.
Proof.
  destruct x as [sx | | |]; try discriminate.
  destruct y as [sy | | |]; try discriminate.
  destruct z as [sz | | |]; try discriminate.
  intros _ _ _. destruct sx, sy, sz; reflexivity.
Qed.

Lemma spherical_row_of_zero_row (x y z : spec_float) :
  is_zero x = true -> is_zero y = true -> is_zero z = true ->
  @spherical_row _ (binary64 m) [x; y; z]
  = [S754_zero false;
     c_asin m nan;
     if SFltb (c_atan2 m nan nan) (S754_zero false)
     then SFadd prec emax (c_atan2 m nan nan) (@two_pi _ (binary64 m))
     else c_atan2 m nan nan].
Proof.
  intros Hx Hy Hz.
  unfold spherical_row, latitude, azimuth, unit_row.
  rewrite (norm_of_zero_row x y z Hx Hy Hz).
  destruct x as [sx | | |]; try discriminate.
  destruct y as [sy | | |]; try discriminate.
  destruct z as [sz | | |]; try discriminate.
  reflexivity.
Qed.

(** A non-zero [x] whose square underflows: the row [[x, 0, 0]] has a
    computed norm of zero. *)
Lemma norm_of_underflowing_row (s : bool) (mx : positive) (ex : Z)
  (y z : spec_float) :
  SFmul prec emax (S754_finite s mx ex) (S754_finite s mx ex) = S754_zero false ->
  is_zero y = true -> is_zero z = true ->
  @norm _ (binary64 m) [S754_finite s mx ex; y; z] = S754_zero false.
Proof.
  intros Hx Hy Hz.
  destruct y as [sy | | |]; try discriminate.
  destruct z as [sz | | |]; try discriminate.
  unfold norm. cbn [map fold_left np_mul np_add np_sqrt of_int binary64].
  rewrite Hx. destruct sy, sz; reflexivity.
Qed.

End Binary64Further.

(** X13.  In binary64, on a batch of width 3, [cartesian_to_spherical]
    raises nothing for a row of zeros (of either sign): it returns for
    that row r = +0, theta = [arcsin(NaN)] and phi computed from
    [arctan2(NaN, NaN)], since every entry of the unit vector is
    [0/0 = NaN]; with a mathematical library that maps NaN to NaN the
    row is [[+0, NaN, NaN]]. *)
Theorem zero_row_gives_nan (m : libm) (rows : list (list spec_float))
  (i : nat) (x y z : spec_float) :
  well_shaped 3 rows -> nth_error rows i = Some [x; y; z] ->
  is_zero x = true -> is_zero y = true -> is_zero z = true ->
  exists out,
    @cartesian_to_spherical _ (binary64 m) (Mat 3 rows) = Ok (Mat 3 out) /\
    @unit_row _ (binary64 m) [x; y; z] = [nan; nan; nan] /\
    nth_error out i
    = Some [S754_zero false;
            c_asin m nan;
            if SFltb (c_atan2 m nan nan) (S754_zero false)
            then SFadd prec emax (c_atan2 m nan nan) (@two_pi _ (binary64 m))
            else c_atan2 m nan nan] /\
    (c_asin m nan = nan -> c_atan2 m nan nan = nan ->
     nth_error out i = Some [S754_zero false; nan; nan]).
Proof.
  intros Hws Hi Hx Hy Hz.
  assert (Hne : rows <> []) by (intros ->; destruct i; discriminate Hi).
  assert (Hrow : nth_error (map (@spherical_row _ (binary64 m)) rows) i
                 = Some (@spherical_row _ (binary64 m) [x; y; z])).
  { apply (nth_error_map_some _ rows i Hi). }
  rewrite (spherical_row_of_zero_row m x y z Hx Hy Hz) in Hrow.
  exists (map (@spherical_row _ (binary64 m)) rows).
  split; [| split; [| split]].
  - apply (@cartesian_to_spherical_batch _ (binary64 m) rows Hne Hws).
  - unfold unit_row. rewrite (norm_of_zero_row m x y z Hx Hy Hz).
    destruct x as [sx | | |]; try discriminate.
    destruct y as [sy | | |]; try discriminate.
    destruct z as [sz | | |]; try discriminate.
    reflexivity.
  - exact Hrow.
  - intros Ha Ht. rewrite Hrow, Ha, Ht. reflexivity.
Qed.

(** X14.  In binary64, for a row whose D is a zero (of either sign),
    [inv_Jacobian] raises nothing and returns the infinity that has the
    sign of [cos(dec)] when that cosine is finite or zero, and NaN when
    it is infinite or NaN. *)
Theorem inv_Jacobian_at_zero_distance (m : libm) (a : ndarray spec_float)
  (rows : list (list spec_float)) (i : nat) (ra dec D : spec_float) :
  @np_atleast_2d spec_float a = Mat 3 rows -> well_shaped 3 rows ->
  nth_error rows i = Some [ra; dec; D] -> is_zero D = true ->
  exists out,
    @inv_Jacobian _ (binary64 m) a = Ok (Vec out) /\
    nth_error out i
    = Some match c_cos m dec with
           | S754_zero s | S754_finite s _ _ => S754_infinity s
           | _ => S754_nan
           end.
Proof.
  intros Ha _ Hi HD.
  exists (map (@inv_jacobian_row _ (binary64 m)) rows). split.
  - unfold inv_Jacobian. rewrite Ha.
    apply (@inv_Jacobian_batch _ (binary64 m) rows).
  - rewrite (nth_error_map_some _ rows i Hi). f_equal.
    apply (reciprocal_of_zero_determinant m D (c_cos m dec) HD).
Qed.

(** X15.  In binary64, a non-zero [x] whose square underflows to zero is
    not told from zero: on a batch of width 3, for the row [[x, 0, 0]],
    [cartesian_to_spherical] returns r = +0, and the unit vector it
    divides out is [[x/0, 0/0, 0/0]], an infinity and two NaN. *)
Theorem underflowing_row_gets_zero_norm (m : libm)
  (rows : list (list spec_float)) (i : nat)
  (s : bool) (mx : positive) (ex : Z) (y z : spec_float) :
  well_shaped 3 rows ->
  nth_error rows i = Some [S754_finite s mx ex; y; z] ->
  SFmul prec emax (S754_finite s mx ex) (S754_finite s mx ex) = S754_zero false ->
  is_zero y = true -> is_zero z = true ->
  exists out theta phi,
    @cartesian_to_spherical _ (binary64 m) (Mat 3 rows) = Ok (Mat 3 out) /\
    nth_error out i = Some [S754_zero false; theta; phi] /\
    @unit_row _ (binary64 m) [S754_finite s mx ex; y; z]
    = [S754_infinity s; nan; nan].
Proof.
  intros Hws Hi Hx Hy Hz.
  assert (Hne : rows <> []) by (intros ->; destruct i; discriminate Hi).
  pose proof (norm_of_underflowing_row m s mx ex y z Hx Hy Hz) as Hn.
  exists (map (@spherical_row _ (binary64 m)) rows),
         (@latitude _ (binary64 m) [S754_finite s mx ex; y; z]),
         (@azimuth _ (binary64 m) [S754_finite s mx ex; y; z]).
  split; [| split].
  - apply (@cartesian_to_spherical_batch _ (binary64 m) rows Hne Hws).
  - rewrite (nth_error_map_some _ rows i Hi). unfold spherical_row.
    now rewrite Hn.
  - unfold unit_row. rewrite Hn.
    destruct y as [sy | | |]; try discriminate.
    destruct z as [sz | | |]; try discriminate.
    cbn. now destruct s.
Qed.

(** ** The further theorems at concrete inputs *)

Section FurtherInstances.

Local Open Scope R_scope.

Lemma narrow_input_is_refused_witness :
  (2 < 3)%nat /\
  well_shaped 2 [[1; 2]] /\
  promotes Cartesian_to_celestial = true /\
  (length [1; 2] < 3)%nat /\
  cartesian_to_celestial (Mat 2 [[1; 2]]) = Raise IndexError /\
  cartesian_to_celestial (Vec [1; 2]) = Raise IndexError.
Proof.
  assert (Hws : well_shaped 2 [[1; 2]]) by repeat constructor.
  assert (Hm : (2 < 3)%nat) by lia.
  split; [exact Hm |]. split; [exact Hws |].
  split; [reflexivity |]. split; [exact Hm |]. split.
  - exact (proj1 (narrow_input_is_refused Cartesian_to_celestial) 2%nat
             [[1; 2]] Hm Hws).
  - exact (proj1 (proj2 (narrow_input_is_refused Cartesian_to_celestial)
                    eq_refl) [1; 2] Hm).
Defined.

Lemma wide_batch_shaped : well_shaped 4 [[1; 2; 3; 4]].
Proof. repeat constructor. Defined.

Lemma further_columns_are_ignored_witness :
  (3 <= 4)%nat /\
  well_shaped 4 [[1; 2; 3; 4]] /\
  spherical_to_cartesian (Mat 4 [[1; 2; 3; 4]])
  = spherical_to_cartesian (Mat 3 [[1; 2; 3]]).
Proof.
  assert (Hm : (3 <= 4)%nat) by lia.
  split; [exact Hm |]. split; [exact wide_batch_shaped |].
  exact (proj1 (further_columns_are_ignored 4 [[1; 2; 3; 4]] Hm
                  wide_batch_shaped) Spherical_to_cartesian eq_refl).
Defined.

Lemma cartesian_to_spherical_on_wide_batch_witness :
  (3 <= 4)%nat /\
  [[1; 2; 3; 4]] <> [] /\
  well_shaped 4 [[1; 2; 3; 4]] /\
  exists out,
    cartesian_to_spherical (Mat 4 [[1; 2; 3; 4]]) = Ok (Mat 3 out) /\
    length out = 1%nat /\
    forall i row, nth_error [[1; 2; 3; 4]] i = Some row ->
      nth_error out i = Some [norm row; asin (entry 2 (unit_row row)); azimuth row].
Proof.
  assert (Hm : (3 <= 4)%nat) by lia.
  assert (Hne : [[1; 2; 3; 4]] <> ([] : list (list R))) by discriminate.
  split; [exact Hm |]. split; [exact Hne |]. split; [exact wide_batch_shaped |].
  exact (proj1 cartesian_to_spherical_on_wide_batch R real_num 4%nat
           [[1; 2; 3; 4]] Hm Hne wide_batch_shaped).
Defined.

Lemma spherical_to_cartesian_preserves_distance_witness :
  well_shaped 3 [[0; 0; 2]] /\
  exists out,
    spherical_to_cartesian (Mat 3 [[0; 0; 2]]) = Ok (Mat 3 out) /\
    np_linalg_norm_last_axis (Mat 3 out) = Ok (Vec [Rabs 2]).
Proof.
  assert (Hws : well_shaped 3 [[0; 0; 2]]) by repeat constructor.
  split; [exact Hws |].
  exact (spherical_to_cartesian_preserves_distance [[0; 0; 2]] Hws).
Defined.


Lemma equator_batch_shaped : well_shaped 3 [[0; 0; 1]].
Proof. repeat constructor. Defined.




Lemma x_axis_batch_off_axis :
  Forall (fun row : list R => entry 0 row <> 0 \/ entry 1 row <> 0) [[1; 0; 0]].
Proof.
  constructor; [| constructor]. left. unfold entry. cbn [nth]. lra.
Defined.

Lemma inv_Jacobian_inverts_Jacobian_witness :
  [[1; 0; 0]] <> [] /\
  well_shaped 3 [[1; 0; 0]] /\
  Forall (fun row : list R => entry 0 row <> 0 \/ entry 1 row <> 0) [[1; 0; 0]] /\
  exists js ks,
    Jacobian (Mat 3 [[1; 0; 0]]) = Ok (Vec js) /\
    (c <- cartesian_to_celestial (Mat 3 [[1; 0; 0]]) ;; inv_Jacobian c)
    = Ok (Vec ks) /\
    Forall2 (fun j k => j * k = 1) js ks.
Proof.
  split; [exact x_axis_batch_nonempty |].
  split; [exact x_axis_batch_shaped |].
  split; [exact x_axis_batch_off_axis |].
  exact (inv_Jacobian_inverts_Jacobian [[1; 0; 0]] x_axis_batch_nonempty
           x_axis_batch_shaped x_axis_batch_off_axis).
Defined.


Lemma celestial_coordinates_in_range_witness :
  [[1; 0; 0]] <> [] /\
  well_shaped 3 [[1; 0; 0]] /\
  Forall (fun row : list R => norm row <> 0) [[1; 0; 0]] /\
  exists out,
    cartesian_to_celestial (Mat 3 [[1; 0; 0]]) = Ok (Mat 3 out) /\
    length out = 1%nat /\
    Forall (fun o => 0 <= entry 0 o < 2 * PI /\
                     - (PI / 2) <= entry 1 o <= PI / 2 /\
                     0 < entry 2 o) out.
Proof.
  split; [exact x_axis_batch_nonempty |].
  split; [exact x_axis_batch_shaped |].
  split; [exact x_axis_batch_nonzero |].
  exact (celestial_coordinates_in_range [[1; 0; 0]] x_axis_batch_nonempty
           x_axis_batch_shaped x_axis_batch_nonzero).
Defined.

Lemma declination_zero_in_range :
  Forall (fun row => - (PI / 2) <= entry 1 row <= PI / 2) [[0; 0; 2]].
Proof.
  repeat constructor; unfold entry; cbn [nth]; pose proof PI_RGT_0; lra.
Defined.

Lemma Jacobian_in_celestial_zeros_witness :
  well_shaped 3 [[0; 0; 2]] /\
  Forall (fun row => - (PI / 2) <= entry 1 row <= PI / 2) [[0; 0; 2]] /\
  exists out,
    Jacobian_in_celestial (Mat 3 [[0; 0; 2]]) = Ok (Vec out) /\
    forall i ra dec D, nth_error [[0; 0; 2]] i = Some [ra; dec; D] ->
      exists j,
        nth_error out i = Some j /\
        0 <= j /\
        (j = 0 <-> D = 0 \/ dec = PI / 2 \/ dec = - (PI / 2)).
Proof.
  assert (Hws : well_shaped 3 [[0; 0; 2]]) by repeat constructor.
  split; [exact Hws |]. split; [exact declination_zero_in_range |].
  exact (Jacobian_in_celestial_zeros [[0; 0; 2]] Hws declination_zero_in_range).
Defined.

End FurtherInstances.

Lemma zero_row_gives_nan_witness :
  let zero := S754_zero false in
  let mzero := S754_zero true in
  well_shaped 3 [[zero; mzero; zero]] /\
  nth_error [[zero; mzero; zero]] 0 = Some [zero; mzero; zero] /\
  is_zero zero = true /\ is_zero mzero = true /\
  c_asin libm_at_nan nan = nan /\ c_atan2 libm_at_nan nan nan = nan /\
  exists out,
    @cartesian_to_spherical _ (binary64 libm_at_nan) (Mat 3 [[zero; mzero; zero]])
    = Ok (Mat 3 out) /\
    nth_error out 0 = Some [zero; nan; nan].
Proof.
  intros zero mzero.
  assert (Hws : well_shaped 3 [[zero; mzero; zero]]) by repeat constructor.
  split; [exact Hws |]. split; [reflexivity |].
  split; [reflexivity |]. split; [reflexivity |].
  split; [reflexivity |]. split; [reflexivity |].
  destruct (zero_row_gives_nan libm_at_nan [[zero; mzero; zero]] 0%nat
              zero mzero zero Hws eq_refl eq_refl eq_refl eq_refl)
    as (out & Hout & _ & _ & Hnan).
  exists out. split; [exact Hout | exact (Hnan eq_refl eq_refl)].
Defined.

Lemma inv_Jacobian_at_zero_distance_witness :
  let zero := S754_zero false in
  @np_atleast_2d spec_float (Vec [zero; zero; zero]) = Mat 3 [[zero; zero; zero]] /\
  well_shaped 3 [[zero; zero; zero]] /\
  nth_error [[zero; zero; zero]] 0 = Some [zero; zero; zero] /\
  is_zero zero = true /\
  exists out,
    @inv_Jacobian _ (binary64 libm_at_nan) (Vec [zero; zero; zero]) = Ok (Vec out) /\
    nth_error out 0 = Some nan.
Proof.
  intros zero.
  assert (Hws : well_shaped 3 [[zero; zero; zero]]) by repeat constructor.
  split; [reflexivity |]. split; [exact Hws |].
  split; [reflexivity |]. split; [reflexivity |].
  exact (inv_Jacobian_at_zero_distance libm_at_nan (Vec [zero; zero; zero])
           [[zero; zero; zero]] 0%nat zero zero zero eq_refl Hws eq_refl eq_refl).
Defined.

(** [2^-600], whose square is below the smallest subnormal. *)
Lemma underflowing_row_gets_zero_norm_witness :
  let zero := S754_zero false in
  let tiny := S754_finite false 4503599627370496 (-652) in
  well_shaped 3 [[tiny; zero; zero]] /\
  nth_error [[tiny; zero; zero]] 0 = Some [tiny; zero; zero] /\
  SFmul prec emax tiny tiny = zero /\
  is_zero zero = true /\
  exists out theta phi,
    @cartesian_to_spherical _ (binary64 libm_at_nan) (Mat 3 [[tiny; zero; zero]])
    = Ok (Mat 3 out) /\
    nth_error out 0 = Some [zero; theta; phi] /\
    @unit_row _ (binary64 libm_at_nan) [tiny; zero; zero] = [pos_infinity; nan; nan].
Proof.
  intros zero tiny.
  assert (Hws : well_shaped 3 [[tiny; zero; zero]]) by repeat constructor.
  assert (Hsq : SFmul prec emax tiny tiny = zero) by (vm_compute; reflexivity).
  split; [exact Hws |]. split; [reflexivity |].
  split; [exact Hsq |]. split; [reflexivity |].
  exact (underflowing_row_gets_zero_norm libm_at_nan [[tiny; zero; zero]] 0%nat
           false 4503599627370496%positive (-652)%Z zero zero Hws eq_refl Hsq
           eq_refl eq_refl).
Defined.

(** ** Inputs that [spherical_to_cartesian] does not tell apart *)

Section Symmetries.

Local Open Scope R_scope.

Lemma cartesian_row_turn (a b r : R) :
  cartesian_row [a + 2 * PI; b; r] = cartesian_row [a; b; r].
Proof.
  unfold cartesian_row, entry. cbn [nth np_mul np_sin np_cos real_num].
  rewrite sin_plus, cos_plus, sin_2PI, cos_2PI.
  apply f_equal2; [ring |]. apply f_equal2; [ring |].
  apply f_equal2; [ring | reflexivity].
Qed.

Lemma cartesian_row_antipode (a b r : R) :
  cartesian_row [a + PI; - b; - r] = cartesian_row [a; b; r].
Proof.
  unfold cartesian_row, entry. cbn [nth np_mul np_sin np_cos real_num].
  rewrite neg_sin, neg_cos, cos_neg, sin_neg.
  apply f_equal2; [ring |]. apply f_equal2; [ring |].
  apply f_equal2; [ring | reflexivity].
Qed.

(** X16.  Over the reals, [spherical_to_cartesian] (and so
    [celestial_to_cartesian]) returns the same Cartesian batch when
    column 0 of every row is increased by 2 pi, and when every row
    [[a, b, r]] is replaced by [[a + pi, -b, -r]]: a negative column 2
    stands for the opposite direction. *)
Theorem spherical_to_cartesian_symmetries (rows : list (list R)) :
  well_shaped 3 rows ->
  spherical_to_cartesian
    (Mat 3 (map (fun row => [entry 0 row + 2 * PI; entry 1 row; entry 2 row]) rows))
  = spherical_to_cartesian (Mat 3 rows) /\
  spherical_to_cartesian
    (Mat 3 (map (fun row => [entry 0 row + PI; - entry 1 row; - entry 2 row]) rows))
  = spherical_to_cartesian (Mat 3 rows).
Proof.
  intros Hws. rewrite !spherical_to_cartesian_batch, !map_map. split.
  - do 2 f_equal. eapply map_ext_on; [| exact Hws].
    intros row Hrow. destruct (row_of_width_3 row Hrow) as (a & b & r & ->).
    apply cartesian_row_turn.
  - do 2 f_equal. eapply map_ext_on; [| exact Hws].
    intros row Hrow. destruct (row_of_width_3 row Hrow) as (a & b & r & ->).
    apply cartesian_row_antipode.
Qed.

Lemma spherical_to_cartesian_symmetries_witness :
  well_shaped 3 [[0; 0; 1]] /\
  spherical_to_cartesian (Mat 3 [[0 + PI; - 0; - 1]])
  = spherical_to_cartesian (Mat 3 [[0; 0; 1]]).
Proof.
  split; [exact equator_batch_shaped |].
  exact (proj2 (spherical_to_cartesian_symmetries [[0; 0; 1]] equator_batch_shaped)).
Defined.

End Symmetries.

(** C6 as stated fails: in binary64 the row [[2^-600, 0, 0]] is not zero,
    but its square underflows, the computed norm is zero and the angles
    returned are NaN, which lie in no interval: NaN is not at least 0,
    and not at least [-pi/2]. *)
Lemma spherical_angles_nan_on_underflow :
  SFltb (S754_zero false) (S754_finite false 4503599627370496 (-652)) = true /\
  @cartesian_to_spherical _ (binary64 libm_at_nan)
    (Mat 3 [[S754_finite false 4503599627370496 (-652);
             S754_zero false; S754_zero false]])
  = Ok (Mat 3 [[S754_zero false; nan; nan]]) /\
  SFleb (S754_zero false) nan = false /\
  SFleb (S754_finite true 7074237752028440 (-52)) nan = false.
Proof.
  split; [reflexivity |]. split; [vm_compute; reflexivity |].
  split; reflexivity.
Qed.
